(** * qfrm_py: forward-start and quanto option pricers

    A shallow embedding of [ForwardStart.py] and [Quanto.py].

    Conventions of the embedding.
    - Python floats are idealised as real numbers ([R]); rounding, overflow
      and NaN are outside the model.  [math.exp], [math.log], [math.sqrt]
      and [scipy.stats.norm.cdf] are the real functions [exp], [ln], [sqrt]
      and [Phi], with the exceptions Python raises outside their domains.
    - A Python call either returns or raises, and may mutate the objects it
      holds: a computation is a function from the mutable state to an
      outcome and the state it leaves behind.  A raise keeps the writes made
      before it.
    - Instance attributes that may be absent are [option] fields. *)

From Stdlib Require Import Reals Lra Lia ZArith String Ascii.
From stdpp Require Import base decidable option list.

(** ** Python outcomes *)

Inductive exn : Type :=
| AssertionError (msg : string)
| ZeroDivisionError
| ValueError
| IndexError
| AttributeError
| TypeError
| LinAlgError
| NameError
| UnboundLocalError.

Inductive result (A : Type) : Type :=
| Ok (a : A)
| Raise (e : exn).
Arguments Ok {A} a.
Arguments Raise {A} e.

(** Computations over a mutable state [St]. *)
Definition M (St A : Type) : Type := St -> result A * St.

Definition ret {St A} (a : A) : M St A := fun s => (Ok a, s).
Definition raise {St A} (e : exn) : M St A := fun s => (Raise e, s).
Definition bind {St A B} (m : M St A) (k : A -> M St B) : M St B :=
  fun s => match m s with
           | (Ok a, s') => k a s'
           | (Raise e, s') => (Raise e, s')
           end.
Definition lift {St A} (r : result A) : M St A := fun s => (r, s).
Definition get {St} : M St St := fun s => (Ok s, s).
Definition modify {St} (f : St -> St) : M St unit := fun s => (Ok tt, f s).

Declare Scope py_scope.
Delimit Scope py_scope with py.
Notation "'let*' x ':=' m 'in' k" := (bind m (fun x => k))
  (at level 10, x name, m at level 100, k at level 200) : py_scope.
Notation "m ';;' k" := (bind m (fun _ => k))
  (at level 100, k at level 200, right associativity) : py_scope.

(** [assert cond, msg] *)
Definition py_assert {St} (cond : bool) (msg : string) : M St unit :=
  if cond then ret tt else raise (AssertionError msg).

(** ** Numeric primitives *)

Local Open Scope R_scope.

#[global] Instance Rle_decision (x y : R) : Decision (x <= y) := Rle_dec x y.
#[global] Instance Rlt_decision (x y : R) : Decision (x < y) := Rlt_dec x y.
#[global] Instance Rge_decision (x y : R) : Decision (x >= y) := Rge_dec x y.
#[global] Instance Rgt_decision (x y : R) : Decision (x > y) := Rgt_dec x y.
#[global] Instance Req_decision : EqDecision R := Req_dec_T.

(** [x / y] on floats: a zero divisor raises. *)
Definition py_div (x y : R) : result R :=
  if decide (y = 0) then Raise ZeroDivisionError else Ok (x / y).

(** [math.log]: a "math domain error" outside the positive reals. *)
Definition py_log (x : R) : result R :=
  if decide (0 < x) then Ok (ln x) else Raise ValueError.

(** [math.sqrt]: a "math domain error" on negative numbers. *)
Definition py_sqrt (x : R) : result R :=
  if decide (0 <= x) then Ok (sqrt x) else Raise ValueError.

(** The standard normal density and distribution function
    ([scipy.stats.norm.cdf]): one half plus the integral of the density
    from 0 to [x]. *)
Definition norm_pdf (t : R) : R := exp (- (t * t / 2)) / sqrt (2 * PI).

Lemma norm_pdf_continuous (t : R) : continuity_pt norm_pdf t.
Proof. unfold norm_pdf. reg. Qed.

Definition norm_pdf_integrable (a b : R) (Hab : a <= b) : Riemann_integrable norm_pdf a b :=
  continuity_implies_RiemannInt Hab (fun x _ => norm_pdf_continuous x).

Definition Phi (x : R) : R :=
  match Rle_dec 0 x with
  | left H => 1 / 2 + RiemannInt (norm_pdf_integrable 0 x H)
  | right H =>
      1 / 2 - RiemannInt (norm_pdf_integrable x 0 (Rlt_le _ _ (Rnot_le_lt _ _ H)))
  end.

(** ** Strings *)

(** [str.lower] on one character and on a string (ASCII letters). *)
Definition lower_ascii (c : ascii) : ascii :=
  let n := nat_of_ascii c in
  if ((65 <=? n)%nat && (n <=? 90)%nat)%bool then ascii_of_nat (n + 32) else c.

Fixpoint lower (s : string) : string :=
  match s with
  | EmptyString => EmptyString
  | String c s' => String (lower_ascii c) (lower s')
  end.

(** [obj.lower()[0]]: [obj] is a string ([Some s]) or some other object
    ([None], no method [lower]); indexing the empty string raises. *)
Definition lower_first (obj : option string) : result ascii :=
  match obj with
  | None => Raise AttributeError
  | Some s =>
      match lower s with
      | EmptyString => Raise IndexError
      | String c _ => Ok c
      end
  end.

(** ** Shared contract data (module [OptionValuation]) *)

(** [Stock(S0, vol, q)]. *)
Record Stock : Type := mkStock { S0 : R; vol : R; q : R }.

(** Modelled from the spec: the [PriceSpec] class of [OptionValuation] is
    not among the sources.  It is the write-only record of section 6
    ("PriceResult sink"): a scalar price plus the named parameters
    (method, steps, paths, degree, seed, vol_ex, correlation) and the
    method-specific diagnostics.  An attribute that was never set, or that
    was set to [None], is absent. *)
Record PriceSpec : Type := mkPriceSpec {
  method : option string;
  sub_method : option string;
  nsteps : option nat;
  npaths : option nat;
  keep_hist : option bool;
  vol_ex : option R;
  correlation : option R;
  seed : option Z;
  deg : option Z;
  px : option R;
  diagnostics : list (string * list R)
}.

(** [getattr(obj, name)] on an attribute that may be absent. *)
Definition getattr {St A} (a : option A) : M St A :=
  match a with
  | Some x => ret x
  | None => raise AttributeError
  end.

(** The constructor [PriceSpec] and the method [add], with the keyword
    arguments the two pricers pass. *)
Definition PriceSpec_new (method : string) (nsteps npaths : option nat) (keep_hist : bool)
    (vol_ex correlation : option R) (seed deg : option Z) : PriceSpec :=
  {| method := Some method; sub_method := None; nsteps := nsteps; npaths := npaths;
     keep_hist := Some keep_hist; vol_ex := vol_ex; correlation := correlation;
     seed := seed; deg := deg; px := None; diagnostics := [] |}.

Definition add_px (p : R) (spec : PriceSpec) : PriceSpec :=
  {| method := method spec; sub_method := sub_method spec; nsteps := nsteps spec;
     npaths := npaths spec; keep_hist := keep_hist spec; vol_ex := vol_ex spec;
     correlation := correlation spec; seed := seed spec; deg := deg spec;
     px := Some p; diagnostics := diagnostics spec |}.

Definition add_method (m : string) (spec : PriceSpec) : PriceSpec :=
  {| method := Some m; sub_method := sub_method spec; nsteps := nsteps spec;
     npaths := npaths spec; keep_hist := keep_hist spec; vol_ex := vol_ex spec;
     correlation := correlation spec; seed := seed spec; deg := deg spec;
     px := px spec; diagnostics := diagnostics spec |}.

(** [str.upper], for the dispatch on ['_calc_' + method.upper()]. *)
Definition upper_ascii (c : ascii) : ascii :=
  let n := nat_of_ascii c in
  if ((97 <=? n)%nat && (n <=? 122)%nat)%bool then ascii_of_nat (n - 32) else c.

Fixpoint upper (s : string) : string :=
  match s with
  | EmptyString => EmptyString
  | String c s' => String (upper_ascii c) (upper s')
  end.

(** What a pricing method hands back: [self], or the [False] of the input
    guards of [ForwardStart._calc_BS]. *)
Inductive returned : Type := ReturnSelf | ReturnFalse.

(** ** ForwardStart.py *)

Module ForwardStart.

(** The contract fields of a [ForwardStart] object.  [right] is a string or
    another object ([None]); [K] may be unset. *)
Record t : Type := mk {
  ref : Stock;
  right : option string;
  K : option R;
  T : R;
  T_s : R;
  rf_r : R
}.

(** What a call can change: [self.px_spec] and the standard output. *)
Record state : Type := mkState {
  px_spec : PriceSpec;
  stdout : list string
}.

Definition print (line : string) : M state unit :=
  modify (fun s => {| px_spec := px_spec s; stdout := stdout s ++ [line] |}).

Definition set_px_spec (spec : PriceSpec) : M state unit :=
  modify (fun s => {| px_spec := spec; stdout := stdout s |}).

Definition update_px_spec (f : PriceSpec -> PriceSpec) : M state unit :=
  modify (fun s => {| px_spec := f (px_spec s); stdout := stdout s |}).

Local Open Scope py_scope.

(** [_calc_BS].  The guard on [right] catches every exception of
    [_.right.lower()[0]].  The numeric fields hold numbers, so the guard
    around their conversion to float never fires; [float(_.K)] fails on an
    unset [K], which is then [S0].  The inner quotes of the first assertion
    message are written as apostrophes. *)
Definition _calc_BS (o : t) : M state returned :=
  match lower_first (right o) with
  | Raise _ => print "Input error. right should be string";; ret ReturnFalse
  | Ok right =>
      let S0 := S0 (ref o) in
      let T := T o in
      let T_s := T_s o in
      let vol := vol (ref o) in
      let r := rf_r o in
      let q := q (ref o) in
      let K := match K o with Some k => k | None => S0 end in
      py_assert (Ascii.eqb right "c" || Ascii.eqb right "p")
                "right should be either 'call' or 'put' ";;
      py_assert (bool_decide (vol >= 0)) "vol >=0";;
      py_assert (bool_decide (T > 0)) "T > 0";;
      py_assert (bool_decide (T_s >= 0)) "T_s >= 0";;
      py_assert (bool_decide (S0 >= 0)) "S >= 0";;
      py_assert (bool_decide (K >= 0)) "K >= 0";;
      py_assert (bool_decide (r >= 0)) "r >= 0";;
      py_assert (bool_decide (q >= 0)) "q >= 0";;
      let* m := lift (py_div S0 K) in
      let* l := lift (py_log m) in
      let* sT := lift (py_sqrt T) in
      let* d1 := lift (py_div (l + (r - q + vol ^ 2 / 2) * T) (vol * sT)) in
      let* sT' := lift (py_sqrt T) in
      let d2 := d1 - vol * sT' in
      let* px :=
        if Ascii.eqb right "c" then
          ret ((S0 * exp (- q * T) * Phi d1 - K * exp (- r * T) * Phi d2) * exp (- q * T_s))
        else if Ascii.eqb right "p" then
          ret ((K * exp (- r * T) * Phi (- d2) - S0 * exp (- q * T) * Phi (- d1)) * exp (- q * T_s))
        else raise UnboundLocalError in
      update_px_spec (fun spec => add_method "BS" (add_px px spec));;
      ret ReturnSelf
  end.

Definition _calc_LT (o : t) : M state returned := ret ReturnSelf.
Definition _calc_FD (o : t) : M state returned := ret ReturnSelf.
(** [_calc_MC] reads [n_steps], which no scope defines. *)
Definition _calc_MC (o : t) : M state returned := raise NameError.

Definition calc_px (o : t) (method : string) (nsteps npaths : option nat) (keep_hist : bool)
    : M state returned :=
  set_px_spec (PriceSpec_new method nsteps npaths keep_hist None None None None);;
  let name := upper method in
  if String.eqb name "BS" then _calc_BS o
  else if String.eqb name "LT" then _calc_LT o
  else if String.eqb name "MC" then _calc_MC o
  else if String.eqb name "FD" then _calc_FD o
  else raise AttributeError.

End ForwardStart.

(** ** External collaborators of Quanto.py *)

(** Pure computations that may raise. *)
Definition rbind {A B} (r : result A) (k : A -> result B) : result B :=
  match r with
  | Ok a => k a
  | Raise e => Raise e
  end.

Declare Scope res_scope.
Delimit Scope res_scope with res.
Notation "'let*' x ':=' m 'in' k" := (rbind m (fun x => k))
  (at level 10, x name, m at level 100, k at level 200) : res_scope.

(** The part of numpy the Monte-Carlo pricer calls: the state of the
    process-wide generator of [numpy.random], the state [seed(s)] puts it
    in, one standard normal variate drawn from a state, and the polynomial
    least-squares fit and evaluation. *)
Class Numpy : Type := {
  RandomState : Type;
  seed_state : Z -> RandomState;
  gauss : RandomState -> R * RandomState;
  polyfit : list R -> list R -> Z -> result (list R);
  polyval : list R -> list R -> list R
}.

(** Modelled from the spec: the class [American] is not among the sources.
    Section 6 gives its interface, a black box from the contract
    (underlying, right, strike, maturity, rate, step count, history flag)
    to a price with tree diagnostics, that is the [px_spec] of the priced
    object. *)
Class AmericanEngine : Type := {
  American_calc_px_LT :
    Stock -> option string -> option R -> R -> R -> nat -> bool -> result PriceSpec
}.

(** [mean] of a one-dimensional array. *)
Definition mean (l : list R) : R := fold_right Rplus 0 l / INR (length l).

(** [cumsum(a, axis=0)]: running sums down the rows. *)
Fixpoint cumsum_from (acc : list R) (rows : list (list R)) : list (list R) :=
  match rows with
  | [] => []
  | r :: rest => let acc' := zip_with Rplus acc r in acc' :: cumsum_from acc' rest
  end.

Definition cumsum (rows : list (list R)) : list (list R) :=
  match rows with
  | [] => []
  | r :: rest => r :: cumsum_from r rest
  end.

(** [a > b] and [where(cond, a, b)], element by element. *)
Definition np_greater (a b : list R) : list bool :=
  zip_with (fun x y => bool_decide (x > y)) a b.

Fixpoint np_where (cond : list bool) (a b : list R) : list R :=
  match cond, a, b with
  | c :: cond', x :: a', y :: b' => (if c then x else y) :: np_where cond' a' b'
  | _, _, _ => []
  end.

(** [a[i]] on the rows of a grid. *)
Definition row (a : list (list R)) (i : nat) : result (list R) :=
  match a !! i with
  | Some r => Ok r
  | None => Raise IndexError
  end.

(** [for i in idxs: a = body(i, a)] *)
Fixpoint for_each {A} (body : nat -> A -> result A) (idxs : list nat) (a : A) : result A :=
  match idxs with
  | [] => Ok a
  | i :: rest => rbind (body i a) (for_each body rest)
  end.

(** [range(start, 0, -1)] *)
Definition range_down (start : nat) : list nat := rev (seq 1 start).

(** ** Quanto.py *)

Module Quanto.

Record t : Type := mk {
  ref : Stock;
  right : option string;
  K : option R;
  T : R;
  rf_r : R;
  frf_r : R
}.

(** What a call can change: [self.px_spec] and the generator of
    [numpy.random], which the whole process shares. *)
Record state {np : Numpy} : Type := mkState {
  px_spec : PriceSpec;
  np_random : RandomState
}.
Arguments mkState {np} px_spec np_random.

Section Pricers.
Context {np : Numpy} {engine : AmericanEngine}.

Definition set_px_spec (spec : PriceSpec) : M state unit :=
  modify (fun s => {| px_spec := spec; np_random := np_random s |}).

Definition update_px_spec (f : PriceSpec -> PriceSpec) : M state unit :=
  modify (fun s => {| px_spec := f (px_spec s); np_random := np_random s |}).

(** [getattr(self.px_spec, name)] and [getattr(self.px_spec, name, default)] *)
Definition attr {A} (field : PriceSpec -> option A) : M state A :=
  fun s => getattr (field (px_spec s)) s.

Definition attr_default {A} (field : PriceSpec -> option A) (d : A) : M state A :=
  fun s => (Ok (default d (field (px_spec s))), s).

(** [numpy.random.seed(s)]: re-initialises the shared generator; seeds
    outside 0 .. 2**32 - 1 are refused. *)
Definition np_seed (s : Z) : M state unit :=
  if bool_decide (0 <= s < 2 ^ 32)%Z
  then modify (fun st => {| px_spec := px_spec st; np_random := seed_state s |})
  else raise ValueError.

(** [numpy.random.normal(loc, scale, (rows, cols))]: the array is filled
    row by row from the shared generator, which advances. *)
Fixpoint draw_row (loc scale : R) (cols : nat) (g : RandomState) : list R * RandomState :=
  match cols with
  | O => ([], g)
  | S cols' =>
      let '(z, g1) := gauss g in
      let '(zs, g2) := draw_row loc scale cols' g1 in
      ((loc + scale * z) :: zs, g2)
  end.

Fixpoint draw_grid (loc scale : R) (rows cols : nat) (g : RandomState)
    : list (list R) * RandomState :=
  match rows with
  | O => ([], g)
  | S rows' =>
      let '(r, g1) := draw_row loc scale cols g in
      let '(rs, g2) := draw_grid loc scale rows' cols g1 in
      (r :: rs, g2)
  end.

Definition np_normal (loc scale : R) (rows cols : nat) : M state (list (list R)) :=
  if bool_decide (scale < 0) then raise ValueError
  else fun st =>
         let '(a, g) := draw_grid loc scale rows cols (np_random st) in
         (Ok a, {| px_spec := px_spec st; np_random := g |}).

(** The foreign numeraire dividend yield, as [_calc_LT] and as [_calc_MC]
    compute it. *)
Definition LT_foreign_numeraire_dividend_yield (o : t) (vol_ex correlation : R) : R :=
  let growth_rate_of_underlying := correlation * vol (ref o) * vol_ex in
  let domestic_numeraire := rf_r o - q (ref o) in
  let foreign_numeraire := domestic_numeraire + growth_rate_of_underlying in
  frf_r o - foreign_numeraire.

Definition MC_foreign_numeraire_dividend_yield (o : t) (vol_ex correlation : R) : R :=
  let growth_rate_of_underlying := correlation * vol (ref o) * vol_ex in
  let domestic_numeraire := rf_r o - q (ref o) in
  let foreign_numeraire := domestic_numeraire + growth_rate_of_underlying in
  frf_r o - foreign_numeraire.

Local Open Scope py_scope.

Definition _calc_LT (o : t) : M state returned :=
  let* vol_ex := attr vol_ex in
  let* correlation := attr correlation in
  let* keep_hist := attr_default keep_hist false in
  let* n := attr_default nsteps 3%nat in
  let foreign_numeraire_dividend_yield :=
    LT_foreign_numeraire_dividend_yield o vol_ex correlation in
  let stock := mkStock (S0 (ref o)) (vol (ref o)) foreign_numeraire_dividend_yield in
  let* spec := lift (American_calc_px_LT stock (right o) (K o) (T o) (frf_r o) n keep_hist) in
  set_px_spec spec;;
  ret ReturnSelf.

Definition _calc_BS (o : t) : M state returned := ret ReturnSelf.
Definition _calc_FD (o : t) : M state returned := ret ReturnSelf.

(** Lines 228-229: seed the generator and build the grid of spot prices,
    (n_steps + 1) rows of n_paths entries. *)
Definition simulate_paths (o : t) (foreign_numeraire_dividend_yield dt : R)
    (n_steps n_paths : nat) : M state (list (list R)) :=
  let* s := attr seed in
  np_seed s;;
  let loc := (frf_r o - foreign_numeraire_dividend_yield - 0.5 * vol (ref o) ^ 2) * dt in
  let* sdt := lift (py_sqrt dt) in
  let* Z := np_normal loc (vol (ref o) * sdt) (n_steps + 1) n_paths in
  let S := map (map (fun x => S0 (ref o) * exp x)) (cumsum Z) in
  ret (<[0%nat := replicate n_paths (S0 (ref o))]> S).

(** The body of the backward-induction loop, lines 233-235. *)
Definition induction_step (S payout : list (list R)) (df : R) (deg : Z)
    (i : nat) (v : list (list R)) : result (list (list R)) :=
  (let* Si := row S i in
   let* vnext := row v (i + 1) in
   let* rg := polyfit Si (map (fun x => x * df) vnext) deg in
   let* Si' := row S i in
   let C := polyval rg Si' in
   let* pi := row payout i in
   let* pi' := row payout i in
   let* vnext' := row v (i + 1) in
   Ok (<[i := np_where (np_greater pi C) pi' (map (fun x => x * df) vnext')]> v))%res.

(** [_calc_MC].  Reading [self.px_spec.deg] raises AttributeError when the
    attribute is absent, which the handler for TypeError does not catch.
    Without [nsteps] or [npaths] the defaults are 3 and 5000. *)
Definition _calc_MC (o : t) : M state returned :=
  let* deg := attr deg in
  let* vol_ex := attr vol_ex in
  let* correlation := attr correlation in
  let* n_steps := attr_default nsteps 3%nat in
  let* n_paths := attr_default npaths 5000%nat in
  let foreign_numeraire_dividend_yield :=
    MC_foreign_numeraire_dividend_yield o vol_ex correlation in
  let* dt := lift (py_div (T o) (INR n_steps)) in
  let df := exp (- frf_r o * dt) in
  let* c := lift (lower_first (right o)) in
  let signCP := if Ascii.eqb c "c" then 1 else -1 in
  let* S := simulate_paths o foreign_numeraire_dividend_yield dt n_steps n_paths in
  let* K := lift (match K o with Some k => Ok k | None => Raise TypeError end) in
  let payout := map (map (fun s => Rmax (signCP * (s - K)) 0)) S in
  let v := payout in
  let* v := lift (for_each (induction_step S payout df deg) (range_down (n_steps - 1)) v) in
  let* v1 := lift (row v 1) in
  let v := <[0%nat := map (fun x => x * df) v1]> v in
  let* v0 := lift (row v 0) in
  update_px_spec (add_px (mean v0));;
  ret ReturnSelf.

(** [calc_px]: the caller's [seed] is a parameter, and the [PriceSpec] is
    built with [seed=1]. *)
Definition calc_px (o : t) (method : string) (nsteps npaths : option nat) (keep_hist : bool)
    (vol_ex correlation : R) (seed : Z) (deg : option Z) : M state returned :=
  set_px_spec (PriceSpec_new method nsteps npaths keep_hist
                 (Some vol_ex) (Some correlation) (Some 1%Z) deg);;
  let name := upper method in
  if String.eqb name "BS" then _calc_BS o
  else if String.eqb name "LT" then _calc_LT o
  else if String.eqb name "MC" then _calc_MC o
  else if String.eqb name "FD" then _calc_FD o
  else raise AttributeError.

End Pricers.
End Quanto.

(** ** The specification's reference definitions *)

Module Spec.

(** Section 4.1, QuantoAdjuster. *)
Definition QuantoAdjuster (rho sigma sigma_fx r q r_f : R) : R :=
  let growth_adj := rho * sigma * sigma_fx in
  let domestic_numeraire := r - q in
  let foreign_numeraire := domestic_numeraire + growth_adj in
  r_f - foreign_numeraire.

(** Section 4.2, the closed form of the forward-start price. *)
Definition d1 (S0 K sigma r q T : R) : R :=
  (ln (S0 / K) + (r - q + sigma ^ 2 / 2) * T) / (sigma * sqrt T).

Definition d2 (S0 K sigma r q T : R) : R :=
  d1 S0 K sigma r q T - sigma * sqrt T.

Definition call_price (S0 K sigma r q T T_s : R) : R :=
  (S0 * exp (- (q * T)) * Phi (d1 S0 K sigma r q T)
   - K * exp (- (r * T)) * Phi (d2 S0 K sigma r q T)) * exp (- (q * T_s)).

Definition put_price (S0 K sigma r q T T_s : R) : R :=
  (K * exp (- (r * T)) * Phi (- d2 S0 K sigma r q T)
   - S0 * exp (- (q * T)) * Phi (- d1 S0 K sigma r q T)) * exp (- (q * T_s)).

(** Section 4.3, the lattice price: the external engine on the synthetic
    single-currency contract. *)
Definition lattice_result {engine : AmericanEngine}
    (S0 sigma q r r_f : R) (right : option string) (K : option R) (T : R)
    (sigma_fx rho : R) (steps : nat) (history : bool) : result PriceSpec :=
  let q' := QuantoAdjuster rho sigma sigma_fx r q r_f in
  American_calc_px_LT (mkStock S0 sigma q') right K T r_f steps history.

(** Section 4.4, steps 6 to 9: the recurrence on a simulated grid, the
    [S] of the specification. *)
Section LSM.
Context {np : Numpy}.
Variables (paths : list (list R)) (n_steps : nat) (K signCP df : R) (deg : Z).

Definition S_at (t : nat) : list R := default [] (paths !! t).

Definition payout_at (t : nat) : list R :=
  map (fun s => Rmax (signCP * (s - K)) 0) (S_at t).

(** Step 7c for one path. *)
Definition exercise (payout C next : R) : R :=
  if decide (payout > C) then payout else next * df.

Fixpoint zip3_with (f : R -> R -> R -> R) (a b c : list R) : list R :=
  match a, b, c with
  | x :: a', y :: b', z :: c' => f x y z :: zip3_with f a' b' c'
  | _, _, _ => []
  end.

(** [value_back k] is value[t,.] at t = n_steps - k. *)
Fixpoint value_back (k : nat) : result (list R) :=
  match k with
  | O => Ok (payout_at n_steps)
  | S k' =>
      let t := (n_steps - S k')%nat in
      (let* next := value_back k' in
       let* fit := polyfit (S_at t) (map (fun x => x * df) next) deg in
       let C := polyval fit (S_at t) in
       Ok (zip3_with exercise (payout_at t) C next))%res
  end.

Definition lsm_price : result R :=
  (let* value1 := value_back (n_steps - 1) in
   let value0 := map (fun x => x * df) value1 in
   Ok (mean value0))%res.

End LSM.

End Spec.

(** ** Vocabulary of the statements on ForwardStart *)

Module ForwardStartSpec.
Import ForwardStart.

(** The strike the formula uses: [K], or [S0] when [K] is unset. *)
Definition strike (o : ForwardStart.t) : R :=
  match K o with Some k => k | None => S0 (ref o) end.

(** The price of section 4.2 for a contract and an option letter. *)
Definition closed_form (o : ForwardStart.t) (c : ascii) : R :=
  if Ascii.eqb c "c"
  then Spec.call_price (S0 (ref o)) (strike o) (vol (ref o)) (rf_r o) (q (ref o)) (T o) (T_s o)
  else Spec.put_price (S0 (ref o)) (strike o) (vol (ref o)) (rf_r o) (q (ref o)) (T o) (T_s o).

(** The state after [px_spec.add(px=p, method='BS')]. *)
Definition priced (p : R) (st : state) : state :=
  {| px_spec := add_method "BS" (add_px p (px_spec st)); stdout := stdout st |}.

(** The state after the message of the guard on [right]. *)
Definition complained (st : state) : state :=
  {| px_spec := px_spec st; stdout := stdout st ++ ["Input error. right should be string"%string] |}.

(** The same contract with another [right]. *)
Definition with_right (s : string) (o : ForwardStart.t) : ForwardStart.t :=
  ForwardStart.mk (ref o) (Some s) (K o) (T o) (T_s o) (rf_r o).

End ForwardStartSpec.

(** ** Vocabulary of the statements on Quanto *)

Module QuantoSpec.
Import Quanto.

Section Vocabulary.
Context {np : Numpy}.

(** [signCP] for the lower-cased first character of [right]. *)
Definition signCP (c : ascii) : R := if Ascii.eqb c "c" then 1 else -1.

(** [dt] and [df] for a step count. *)
Definition dt (o : Quanto.t) (n_steps : nat) : R := T o / INR n_steps.
Definition df (o : Quanto.t) (n_steps : nat) : R := exp (- frf_r o * dt o n_steps).

(** The variates drawn after seeding with [s], and the generator they
    leave behind. *)
Definition draws (o : Quanto.t) (yield : R) (n_steps n_paths : nat) (s : Z)
    : list (list R) * RandomState :=
  draw_grid ((frf_r o - yield - 0.5 * vol (ref o) ^ 2) * dt o n_steps)
            (vol (ref o) * sqrt (dt o n_steps)) (n_steps + 1) n_paths (seed_state s).

(** The grid of spot prices built from them. *)
Definition paths_of (o : Quanto.t) (yield : R) (n_steps n_paths : nat) (s : Z)
    : list (list R) :=
  <[0%nat := replicate n_paths (S0 (ref o))]>
    (map (map (fun x => S0 (ref o) * exp x)) (cumsum (fst (draws o yield n_steps n_paths s)))).

Definition with_generator (g : RandomState) (st : state) : state :=
  {| px_spec := px_spec st; np_random := g |}.

Definition with_px (p : R) (st : state) : state :=
  {| px_spec := add_px p (px_spec st); np_random := np_random st |}.

Definition with_px_spec (spec : PriceSpec) (st : state) : state :=
  {| px_spec := spec; np_random := np_random st |}.

(** The [PriceSpec] that [calc_px] builds. *)
Definition fresh_spec (method : string) (nsteps npaths : option nat) (keep_hist : bool)
    (vol_ex correlation : R) (deg : option Z) : PriceSpec :=
  PriceSpec_new method nsteps npaths keep_hist (Some vol_ex) (Some correlation) (Some 1%Z) deg.

(** A computation is blind to the generator when, from two states with the
    same [px_spec], it gives the same outcome and again states with the
    same [px_spec]. *)
Definition generator_blind {A} (m : M state A) : Prop :=
  forall st st' : state,
    px_spec st = px_spec st' ->
    fst (m st) = fst (m st') /\ px_spec (snd (m st)) = px_spec (snd (m st')).

End Vocabulary.
End QuantoSpec.

(** ** A small instance of the numerical library

    A generator that counts its draws and a least-squares fit for degree 0
    (the mean), on which the model runs on concrete inputs. *)

Module Demo.

Definition counting_gauss (g : Z * nat) : R * (Z * nat) :=
  (IZR (fst g) - INR (snd g), (fst g, S (snd g))).

Definition horner (p : list R) (x : R) : R :=
  fold_left (fun acc c => acc * x + c) p 0.

Definition mean_fit (x y : list R) (deg : Z) : result (list R) :=
  if bool_decide (deg = 0%Z) then Ok [mean y] else Raise LinAlgError.

#[export] Instance numpy : Numpy := {|
  RandomState := Z * nat;
  seed_state := fun s => (s, O);
  gauss := counting_gauss;
  polyfit := mean_fit;
  polyval := fun p x => map (horner p) x
|}.

(** A stand-in for the lattice engine: a tree with a single node, the
    call exercised at once. *)
Definition immediate_exercise (stock : Stock) (right : option string) (K : option R)
    (T rate : R) (steps : nat) (history : bool) : result PriceSpec :=
  Ok (add_px (Rmax (S0 stock - default (S0 stock) K) 0)
        (PriceSpec_new "LT" (Some steps) None history None None None None)).

#[export] Instance engine : AmericanEngine := {|
  American_calc_px_LT := immediate_exercise
|}.

(** The forward-start contract of the first doctest of [calc_px]. *)
Definition fwd_start : ForwardStart.t :=
  ForwardStart.mk (mkStock 50 0.15 0.05) (Some "call"%string) None 0.5 0.5 0.1.

(** The same contract with a zero strike, with zero volatility, and with
    a [right] that is neither word. *)
Definition fwd_zero_strike : ForwardStart.t :=
  ForwardStart.mk (mkStock 50 0.15 0.05) (Some "call"%string) (Some 0) 0.5 0.5 0.1.

Definition fwd_zero_vol : ForwardStart.t :=
  ForwardStart.mk (mkStock 50 0 0.05) (Some "call"%string) None 0.5 0.5 0.1.

Definition fwd_chicken : ForwardStart.t :=
  ForwardStart.mk (mkStock 50 0.15 0.05) (Some "chicken"%string) None 0.5 0.5 0.1.

Definition fwd_state : ForwardStart.state :=
  ForwardStart.mkState (PriceSpec_new "BS" None None false None None None None) [].

(** The quanto contract of Hull, example 30.5. *)
Definition quanto : Quanto.t :=
  Quanto.mk (mkStock 1200 0.25 0.015) (Some "call"%string) (Some 1200) 2 0.03 0.05.


Definition quanto_no_right : Quanto.t :=
  Quanto.mk (mkStock 1200 0.25 0.015) None (Some 1200) 2 0.03 0.05.

Definition quanto_state (spec : PriceSpec) (g : Z * nat) : Quanto.state :=
  Quanto.mkState spec g.

(** A state before any pricing call: the generator was seeded with 7 and
    has given three variates. *)
Definition idle_state : Quanto.state :=
  quanto_state (PriceSpec_new "BS" None None false None None None None) (7%Z, 3%nat).

(** The state in which [calc_px] enters [_calc_MC] for sigma_fx = 0.12,
    rho = 0.2 and degree 0. *)
Definition mc_state (n_steps n_paths : nat) : Quanto.state :=
  quanto_state (QuantoSpec.fresh_spec "MC" (Some n_steps) (Some n_paths) false 0.12 0.2
                  (Some 0%Z)) (7%Z, 3%nat).

End Demo.

(** ** Further vocabulary: variations of a contract *)

Module ForwardStartOps.
Import ForwardStart.

(** The same contract with another start time. *)
Definition with_T_s (x : R) (o : ForwardStart.t) : ForwardStart.t :=
  ForwardStart.mk (ref o) (right o) (K o) (T o) x (rf_r o).

(** The same contract with the spot, and the strike when it is set,
    multiplied by [lam]. *)
Definition scaled (lam : R) (o : ForwardStart.t) : ForwardStart.t :=
  ForwardStart.mk (mkStock (lam * S0 (ref o)) (vol (ref o)) (q (ref o))) (right o)
    (match K o with Some k => Some (lam * k) | None => None end) (T o) (T_s o) (rf_r o).

(** A computation that leaves the state as it found it. *)
Definition stateless {A} (m : M state A) : Prop := forall st, snd (m st) = st.

(** A method that hands back the object or leaves [px_spec] alone. *)
Definition writes_only_on_success (m : M state returned) : Prop :=
  forall st, fst (m st) = Ok ReturnSelf \/
             (fst (m st) <> Ok ReturnSelf /\ px_spec (snd (m st)) = px_spec st).

End ForwardStartOps.

Module QuantoOps.
Import Quanto.

Section Ops.
Context {np : Numpy}.

(** The same contract with another [right]. *)
Definition with_right (s : string) (o : Quanto.t) : Quanto.t :=
  Quanto.mk (ref o) (Some s) (K o) (T o) (rf_r o) (frf_r o).

(** The sums of the columns of a block of rows. *)
Definition column_sums (rows : list (list R)) : list R :=
  match rows with
  | [] => []
  | r :: rest => fold_left (zip_with Rplus) rest r
  end.

(** A computation that never changes [px_spec], and a method that hands
    the object back or leaves [px_spec] alone. *)
Definition keeps_px_spec {A} (m : M state A) : Prop :=
  forall st, px_spec (snd (m st)) = px_spec st.

Definition records_only_on_success (m : M state returned) : Prop :=
  forall st, fst (m st) = Ok ReturnSelf \/ px_spec (snd (m st)) = px_spec st.

(** The generator after [count] variates. *)
Definition advanced (count : nat) (g : RandomState) : RandomState :=
  Nat.iter count (fun g' => snd (gauss g')) g.

End Ops.
End QuantoOps.

(** * Properties *)

(** ** Stepping lemmas for the primitives *)

Lemma py_div_ok (x y : R) : y <> 0 -> py_div x y = Ok (x / y).
Proof. intros Hy. unfold py_div. destruct (decide (y = 0)); [contradiction | reflexivity]. Qed.

Lemma py_div_zero (x : R) : py_div x 0 = Raise ZeroDivisionError.
Proof. unfold py_div. destruct (decide (0 = 0)); [reflexivity | contradiction]. Qed.

Lemma py_log_ok (x : R) : 0 < x -> py_log x = Ok (ln x).
Proof. intros Hx. unfold py_log. destruct (decide (0 < x)); [reflexivity | contradiction]. Qed.

Lemma py_log_domain (x : R) : x <= 0 -> py_log x = Raise ValueError.
Proof. intros Hx. unfold py_log. destruct (decide (0 < x)); [lra | reflexivity]. Qed.

Lemma py_sqrt_ok (x : R) : 0 <= x -> py_sqrt x = Ok (sqrt x).
Proof. intros Hx. unfold py_sqrt. destruct (decide (0 <= x)); [reflexivity | contradiction]. Qed.

Lemma py_assert_true {St} (b : bool) (msg : string) (s : St) :
  b = true -> py_assert b msg s = (Ok tt, s).
Proof. intros ->. reflexivity. Qed.

Lemma py_assert_false {St} (b : bool) (msg : string) (s : St) :
  b = false -> py_assert b msg s = (Raise (AssertionError msg), s).
Proof. intros ->. reflexivity. Qed.

(** ** ForwardStart._calc_BS *)

Section ForwardStartFacts.
Import ForwardStart ForwardStartSpec.

Lemma calc_BS_priced (o : ForwardStart.t) (st : state) (c : ascii) :
  lower_first (right o) = Ok c ->
  (c = "c" \/ c = "p")%char ->
  vol (ref o) > 0 -> T o > 0 -> T_s o >= 0 -> S0 (ref o) > 0 -> strike o > 0 ->
  rf_r o >= 0 -> q (ref o) >= 0 ->
  _calc_BS o st = (Ok ReturnSelf, priced (closed_form o c) st).
Proof.
  intros Hc Hcp Hvol HT HTs HS HK Hr Hq.
  unfold _calc_BS. rewrite Hc. fold (strike o).
  assert (Hsqrt : 0 < sqrt (T o)) by (apply sqrt_lt_R0; lra).
  assert (Hm : 0 < S0 (ref o) / strike o) by (apply Rdiv_lt_0_compat; lra).
  assert (Hden : vol (ref o) * sqrt (T o) <> 0) by (apply Rgt_not_eq; nra).
  unfold bind at 1.
  rewrite py_assert_true by (destruct Hcp as [-> | ->]; reflexivity).
  do 7 (unfold bind at 1; rewrite py_assert_true by (apply bool_decide_eq_true_2; lra)).
  unfold bind, lift.
  rewrite py_div_ok by lra. rewrite py_log_ok by assumption.
  rewrite py_sqrt_ok by lra. rewrite py_div_ok by assumption.
  unfold closed_form, Spec.call_price, Spec.put_price, Spec.d2, Spec.d1, priced.
  rewrite !Ropp_mult_distr_l.
  destruct Hcp as [-> | ->]; reflexivity.
Qed.

Ltac pass_asserts :=
  repeat (unfold bind at 1;
          rewrite py_assert_true
            by first [reflexivity | apply bool_decide_eq_true_2; simpl; lra]).

(** With a zero strike the first division of [d1] raises. *)
Lemma calc_BS_zero_strike (o : ForwardStart.t) (st : state) (c : ascii) :
  lower_first (right o) = Ok c ->
  (c = "c" \/ c = "p")%char ->
  vol (ref o) >= 0 -> T o > 0 -> T_s o >= 0 -> S0 (ref o) >= 0 -> strike o = 0 ->
  rf_r o >= 0 -> q (ref o) >= 0 ->
  _calc_BS o st = (Raise ZeroDivisionError, st).
Proof.
  intros Hc Hcp Hvol HT HTs HS HK Hr Hq.
  unfold _calc_BS. rewrite Hc. fold (strike o). rewrite HK.
  unfold bind at 1.
  rewrite py_assert_true by (destruct Hcp as [-> | ->]; reflexivity).
  pass_asserts.
  unfold bind, lift. rewrite py_div_zero. reflexivity.
Qed.

(** With zero volatility the divisor [vol * sqrt(T)] of [d1] is zero. *)
Lemma calc_BS_zero_vol (o : ForwardStart.t) (st : state) (c : ascii) :
  lower_first (right o) = Ok c ->
  (c = "c" \/ c = "p")%char ->
  vol (ref o) = 0 -> T o > 0 -> T_s o >= 0 -> S0 (ref o) > 0 -> strike o > 0 ->
  rf_r o >= 0 -> q (ref o) >= 0 ->
  _calc_BS o st = (Raise ZeroDivisionError, st).
Proof.
  intros Hc Hcp Hvol HT HTs HS HK Hr Hq.
  unfold _calc_BS. rewrite Hc. fold (strike o). rewrite Hvol.
  assert (Hm : 0 < S0 (ref o) / strike o) by (apply Rdiv_lt_0_compat; lra).
  unfold bind at 1.
  rewrite py_assert_true by (destruct Hcp as [-> | ->]; reflexivity).
  pass_asserts.
  unfold bind, lift.
  rewrite py_div_ok by lra. rewrite py_log_ok by assumption.
  rewrite py_sqrt_ok by lra. rewrite Rmult_0_l, py_div_zero. reflexivity.
Qed.

(** When the guard on [right] fires, the pricer prints and returns
    [False]. *)
Lemma calc_BS_not_a_string (o : ForwardStart.t) (st : state) (e : exn) :
  lower_first (right o) = Raise e ->
  _calc_BS o st = (Ok ReturnFalse, complained st).
Proof. intros He. unfold _calc_BS. rewrite He. reflexivity. Qed.

(** A failed assertion raises before anything is written. *)
Lemma calc_BS_rejects (o : ForwardStart.t) (st : state) (c : ascii) :
  lower_first (right o) = Ok c ->
  (c <> "c" /\ c <> "p")%char \/ vol (ref o) < 0 \/ T o <= 0 \/ T_s o < 0 \/
    S0 (ref o) < 0 \/ strike o < 0 \/ rf_r o < 0 \/ q (ref o) < 0 ->
  exists msg, _calc_BS o st = (Raise (AssertionError msg), st).
Proof.
  intros Hc Hbad.
  unfold _calc_BS. rewrite Hc. fold (strike o).
  unfold bind at 1.
  destruct (Ascii.eqb c "c" || Ascii.eqb c "p")%bool eqn:Hright;
    [rewrite py_assert_true by reflexivity
    | rewrite py_assert_false by reflexivity; eexists; reflexivity].
  do 7 (unfold bind at 1;
        match goal with
        | |- context [py_assert (bool_decide ?P) ?m ?s] =>
            destruct (bool_decide P) eqn:?;
            [rewrite py_assert_true by reflexivity
            | rewrite py_assert_false by reflexivity; eexists; reflexivity]
        end).
  exfalso.
  repeat match goal with
         | H : bool_decide _ = true |- _ => apply bool_decide_eq_true_1 in H
         end.
  apply orb_true_iff in Hright.
  rewrite !Ascii.eqb_eq in Hright.
  destruct Hbad as [[Hc1 Hc2] | Hbad]; [destruct Hright; contradiction |].
  lra.
Qed.

End ForwardStartFacts.

(** ** Claims on the forward-start analytic pricer *)

Section ForwardStartClaims.
Import ForwardStart ForwardStartSpec.

Ltac field_values :=
  cbv [Demo.fwd_start Demo.fwd_zero_strike Demo.fwd_zero_vol Demo.fwd_chicken
       strike K S0 vol q ref T T_s rf_r right].




(** C7 (amended).  When [right] is a non-empty string whose lower-cased
    first character is neither 'c' nor 'p', or when sigma < 0, T <= 0,
    T_s < 0, S0 < 0, K < 0, r < 0 or q < 0, the analytic pricer fails with
    the AssertionError of its validation block, before any price is
    computed and with the state unchanged.  When [right] is not a string or
    is the empty string, the pricer does not raise: it prints a message,
    returns False and writes no price. *)
Theorem calc_BS_validation (o : ForwardStart.t) (st : state) :
  (forall c : ascii,
     lower_first (right o) = Ok c ->
     (c <> "c" /\ c <> "p")%char \/ vol (ref o) < 0 \/ T o <= 0 \/ T_s o < 0 \/
       S0 (ref o) < 0 \/ strike o < 0 \/ rf_r o < 0 \/ q (ref o) < 0 ->
     exists msg, _calc_BS o st = (Raise (AssertionError msg), st)) /\
  (forall e : exn,
     lower_first (right o) = Raise e ->
     _calc_BS o st = (Ok ReturnFalse, complained st) /\
     px (px_spec (complained st)) = px (px_spec st)).
Proof.
  split.
  - intros c Hc Hbad. exact (calc_BS_rejects o st c Hc Hbad).
  - intros e He. split; [exact (calc_BS_not_a_string o st e He) | reflexivity].
Qed.

(** A contract with right "x" is refused by the first assertion. *)
Lemma calc_BS_validation_witness :
  exists msg,
    _calc_BS (with_right "x" Demo.fwd_start) Demo.fwd_state
    = (Raise (AssertionError msg), Demo.fwd_state).
Proof.
  apply (proj1 (calc_BS_validation (with_right "x" Demo.fwd_start) Demo.fwd_state) "x"%char).
  - reflexivity.
  - left. split; discriminate.
Defined.

(** C7 as stated fails: "chicken" is neither "call" nor "put", the numbers
    are valid, and the contract is priced as a call instead of being
    refused. *)
Lemma calc_BS_validation_counterexample :
  let o := Demo.fwd_chicken in
  right o <> Some "call"%string /\ right o <> Some "put"%string /\
  _calc_BS o Demo.fwd_state =
    (Ok ReturnSelf, priced (Spec.call_price 50 50 0.15 0.1 0.05 0.5 0.5) Demo.fwd_state).
Proof.
  simpl. split; [discriminate |]. split; [discriminate |].
  rewrite (calc_BS_priced Demo.fwd_chicken Demo.fwd_state "c");
    first [reflexivity | left; reflexivity | field_values; lra].
Qed.

(** C9 (failing input).  S0 = 50, sigma = 0, q = 0.05, T_s = 0.5, T = 0.5,
    r = 0.1, a call with K unset: every assertion passes, sigma = 0
    included, and the division by sigma * sqrt(T) raises
    ZeroDivisionError; no price is written. *)
Theorem calc_BS_zero_volatility_raises :
  _calc_BS Demo.fwd_zero_vol Demo.fwd_state = (Raise ZeroDivisionError, Demo.fwd_state).
Proof.
  apply (calc_BS_zero_vol Demo.fwd_zero_vol Demo.fwd_state "c");
    first [reflexivity | left; reflexivity | field_values; lra].
Qed.



End ForwardStartClaims.

(** ** The backward-induction loop against the recurrence *)

Section BackwardInduction.
Context {np : Numpy}.
Variables (paths : list (list R)) (n : nat) (strike signCP df : R) (degree : Z).
Hypothesis paths_rows : length paths = (n + 1)%nat.

Let payout : list (list R) :=
  map (map (fun s => Rmax (signCP * (s - strike)) 0)) paths.

Lemma for_each_app {A} (body : nat -> A -> result A) (l1 l2 : list nat) (a : A) :
  for_each body (l1 ++ l2) a = rbind (for_each body l1 a) (for_each body l2).
Proof.
  revert a. induction l1 as [| i l1 IH]; intros a; simpl; [reflexivity |].
  destruct (body i a) as [a' | e]; simpl; [apply IH | reflexivity].
Qed.

Lemma row_paths (t : nat) : (t <= n)%nat -> row paths t = Ok (Spec.S_at paths t).
Proof.
  intros Ht. unfold row, Spec.S_at.
  destruct (paths !! t) as [r |] eqn:Hr; [reflexivity |].
  apply lookup_ge_None in Hr. lia.
Qed.

Lemma row_payout (t : nat) :
  (t <= n)%nat -> row payout t = Ok (Spec.payout_at paths strike signCP t).
Proof.
  intros Ht. unfold row, payout, Spec.payout_at, Spec.S_at.
  rewrite list_lookup_fmap.
  destruct (paths !! t) as [r |] eqn:Hr; [reflexivity |].
  apply lookup_ge_None in Hr. lia.
Qed.

Lemma payout_rows : length payout = (n + 1)%nat.
Proof. unfold payout. rewrite length_map. exact paths_rows. Qed.

(** The vectorised exercise decision is step 7c on every path. *)
Lemma where_is_exercise (p C next : list R) :
  np_where (np_greater p C) p (map (fun x => x * df) next)
  = Spec.zip3_with (Spec.exercise df) p C next.
Proof.
  revert C next. induction p as [| x p IH]; intros C next; [reflexivity |].
  destruct C as [| y C]; [reflexivity |].
  destruct next as [| z next]; [reflexivity |].
  unfold np_greater in *. simpl. unfold Spec.exercise at 1.
  destruct (decide (x > y)) as [Hgt | Hle];
    [rewrite (bool_decide_eq_true_2 _ Hgt) | rewrite (bool_decide_eq_false_2 _ Hle)];
    f_equal; apply IH.
Qed.

(** After the iterations i = n-1, ..., n-j the row n-j of [v] holds
    value[n-j,.], and the loop raises exactly when the recurrence does. *)
Lemma loop_invariant (j : nat) :
  (j + 1 <= n)%nat ->
  match for_each (Quanto.induction_step paths payout df degree) (rev (seq (n - j) j)) payout,
        Spec.value_back paths n strike signCP df degree j with
  | Ok v, Ok r => length v = (n + 1)%nat /\ v !! (n - j)%nat = Some r
  | Raise e, Raise e' => e = e'
  | _, _ => False
  end.
Proof.
  induction j as [| j IH]; intros Hj.
  - simpl. split; [exact payout_rows |].
    rewrite Nat.sub_0_r. pose proof (row_payout n (Nat.le_refl n)) as Hrow.
    unfold row in Hrow. destruct (payout !! n); [congruence | discriminate].
  - specialize (IH ltac:(lia)).
    replace (seq (n - S j) (S j)) with ((n - S j)%nat :: seq (n - j) j)
      by (simpl; f_equal; f_equal; lia).
    simpl rev. rewrite for_each_app. simpl Spec.value_back.
    destruct (for_each _ (rev (seq (n - j) j)) payout) as [v | e];
      destruct (Spec.value_back paths n strike signCP df degree j) as [r | e'];
      try contradiction; simpl; [| assumption].
    destruct IH as [Hlen Hrow].
    unfold Quanto.induction_step.
    rewrite (row_paths (n - S j)) by lia.
    rewrite (row_payout (n - S j)) by lia.
    replace (n - S j + 1)%nat with (n - j)%nat by lia.
    unfold row at 1 2. rewrite Hrow. simpl.
    destruct (polyfit (Spec.S_at paths (n - S j)) (map (fun x => x * df) r) degree)
      as [fit | e]; simpl; [| reflexivity].
    split; [rewrite length_insert; exact Hlen |].
    rewrite list_lookup_insert_eq by lia.
    rewrite where_is_exercise. reflexivity.
Qed.

(** The loop, the discounting to time 0 and the mean give the price of the
    recurrence. *)
Lemma induction_is_lsm_price :
  (1 <= n)%nat ->
  rbind (for_each (Quanto.induction_step paths payout df degree) (range_down (n - 1)) payout)
    (fun v => rbind (row v 1)
      (fun v1 => rbind (row (<[0%nat := map (fun x => x * df) v1]> v) 0)
        (fun v0 => Ok (mean v0))))
  = Spec.lsm_price paths n strike signCP df degree.
Proof.
  intros Hn. unfold Spec.lsm_price, range_down.
  pose proof (loop_invariant (n - 1) ltac:(lia)) as Hloop.
  replace (n - (n - 1))%nat with 1%nat in Hloop by lia.
  destruct (for_each _ (rev (seq 1 (n - 1))) payout) as [v | e];
    destruct (Spec.value_back paths n strike signCP df degree (n - 1)) as [r | e'];
    try contradiction; simpl; [| congruence].
  destruct Hloop as [Hlen Hrow].
  unfold row. rewrite Hrow. simpl.
  rewrite list_lookup_insert_eq by lia. reflexivity.
Qed.

End BackwardInduction.

(** ** Quanto: simulation and the Monte-Carlo pricer *)

Section QuantoFacts.
Import Quanto QuantoSpec.
Context {np : Numpy}.

Lemma draw_grid_rows (loc scale : R) (rows cols : nat) (g : RandomState) :
  length (fst (draw_grid loc scale rows cols g)) = rows.
Proof.
  revert g. induction rows as [| rows IH]; intros g; simpl; [reflexivity |].
  destruct (draw_row loc scale cols g) as [r g1].
  specialize (IH g1). destruct (draw_grid loc scale rows cols g1) as [rs g2].
  simpl in *. congruence.
Qed.

Lemma cumsum_from_rows (acc : list R) (rows : list (list R)) :
  length (cumsum_from acc rows) = length rows.
Proof.
  revert acc. induction rows as [| r rows IH]; intros acc; simpl; [reflexivity |].
  rewrite IH. reflexivity.
Qed.

Lemma cumsum_rows (rows : list (list R)) : length (cumsum rows) = length rows.
Proof. destruct rows as [| r rows]; simpl; [| rewrite cumsum_from_rows]; reflexivity. Qed.

Lemma paths_of_rows (o : Quanto.t) (yield : R) (n m : nat) (s : Z) :
  length (paths_of o yield n m s) = (n + 1)%nat.
Proof.
  unfold paths_of, draws.
  rewrite length_insert, length_map, cumsum_rows. apply draw_grid_rows.
Qed.

(** What lines 228-229 do from any state: the generator is set from the
    stored seed, the variates are drawn from it, and it stays advanced. *)
Lemma simulate_paths_run (o : Quanto.t) (yield : R) (n m : nat) (s : Z) (st : state) :
  seed (px_spec st) = Some s -> (0 <= s < 2 ^ 32)%Z ->
  0 <= dt o n -> 0 <= vol (ref o) ->
  simulate_paths o yield (dt o n) n m st
  = (Ok (paths_of o yield n m s), with_generator (snd (draws o yield n m s)) st).
Proof.
  intros Hseed Hs Hdt Hvol.
  unfold simulate_paths, bind, attr, getattr, lift, ret. rewrite Hseed.
  unfold np_seed. rewrite bool_decide_eq_true_2 by assumption.
  unfold modify. rewrite py_sqrt_ok by assumption.
  unfold np_normal. rewrite bool_decide_eq_false_2
    by (pose proof (sqrt_pos (dt o n)); nra).
  unfold paths_of, draws, with_generator. simpl.
  destruct (draw_grid _ _ (n + 1) m (seed_state s)) as [a g]. reflexivity.
Qed.

(** Whenever the simulation returns, the grid has n_steps + 1 rows and
    [px_spec] is untouched. *)
Lemma simulate_paths_shape (o : Quanto.t) (yield step : R) (n m : nat)
    (st st1 : state) (S : list (list R)) :
  simulate_paths o yield step n m st = (Ok S, st1) ->
  length S = (n + 1)%nat /\ px_spec st1 = px_spec st.
Proof.
  unfold simulate_paths, bind, attr, getattr, lift, ret, raise.
  destruct (seed (px_spec st)) as [s |]; [| discriminate].
  unfold np_seed. destruct (bool_decide (0 <= s < 2 ^ 32)%Z); [| discriminate].
  unfold modify. destruct (py_sqrt step) as [sdt | e]; [| discriminate].
  unfold np_normal, raise. destruct (bool_decide (vol (ref o) * sdt < 0)); [discriminate |].
  simpl.
  pose proof (draw_grid_rows ((frf_r o - yield - 0.5 * vol (ref o) ^ 2) * step)
                (vol (ref o) * sdt) (n + 1) m (seed_state s)) as Hrows.
  destruct (draw_grid _ _ (n + 1) m (seed_state s)) as [a g].
  intros [= <- <-]. simpl in *.
  rewrite length_insert, length_map, cumsum_rows. split; [exact Hrows | reflexivity].
Qed.

(** [_calc_MC] on a state whose attributes are set, once the simulation
    has returned the grid [S]: the outcome is that of the recurrence. *)
Lemma calc_MC_lsm (o : Quanto.t) (st st1 : state) (d : Z) (vx rho k : R) (c : ascii)
    (n m : nat) (S : list (list R)) :
  deg (px_spec st) = Some d -> vol_ex (px_spec st) = Some vx ->
  correlation (px_spec st) = Some rho ->
  n = default 3%nat (nsteps (px_spec st)) -> m = default 5000%nat (npaths (px_spec st)) ->
  K o = Some k -> lower_first (right o) = Ok c ->
  (1 <= n)%nat ->
  simulate_paths o (MC_foreign_numeraire_dividend_yield o vx rho) (dt o n) n m st
    = (Ok S, st1) ->
  _calc_MC o st
  = match Spec.lsm_price S n k (signCP c) (df o n) d with
    | Ok p => (Ok ReturnSelf, with_px p st1)
    | Raise e => (Raise e, st1)
    end.
Proof.
  intros Hdeg Hvx Hrho Hn Hm HK Hc Hn1 Hsim.
  destruct (simulate_paths_shape _ _ _ _ _ _ _ _ Hsim) as [Hrows _].
  rewrite <- (induction_is_lsm_price S n k (signCP c) (df o n) d Hrows Hn1).
  unfold _calc_MC, bind at 1 2 3 4 5, attr, attr_default, getattr, ret.
  rewrite Hdeg, Hvx, Hrho, <- Hn, <- Hm.
  unfold bind at 1, lift at 1. rewrite py_div_ok by (apply not_0_INR; lia).
  unfold bind at 1, lift at 1. rewrite Hc.
  unfold bind at 1. fold (dt o n). rewrite Hsim.
  unfold bind at 1, lift at 1. rewrite HK.
  unfold signCP, df, bind, lift, rbind, update_px_spec, modify, with_px.
  destruct (for_each _ _ _) as [v | e]; [| reflexivity].
  destruct (row v 1) as [v1 | e]; [| reflexivity].
  destruct (row _ 0) as [v0 | e]; reflexivity.
Qed.

(** The simulation reads the generator only after seeding it: from two
    states with the same [px_spec] it gives the same outcome, and when it
    returns, the same state. *)
Lemma simulate_paths_same_spec (o : Quanto.t) (yield step : R) (n m : nat) (st st' : state) :
  px_spec st = px_spec st' ->
  fst (simulate_paths o yield step n m st) = fst (simulate_paths o yield step n m st') /\
  px_spec (snd (simulate_paths o yield step n m st))
    = px_spec (snd (simulate_paths o yield step n m st')) /\
  (forall S, fst (simulate_paths o yield step n m st) = Ok S ->
             snd (simulate_paths o yield step n m st)
             = snd (simulate_paths o yield step n m st')).
Proof.
  destruct st as [ps g], st' as [ps' g']. simpl. intros <-.
  unfold simulate_paths, bind, attr, getattr, lift, ret, raise. simpl.
  destruct (seed ps) as [s |]; simpl; [| repeat split; discriminate].
  unfold np_seed, modify, raise.
  destruct (bool_decide (0 <= s < 2 ^ 32)%Z); simpl; [| repeat split; discriminate].
  destruct (py_sqrt step) as [sdt | e]; simpl; [| repeat split; discriminate].
  unfold np_normal, raise.
  destruct (bool_decide (vol (ref o) * sdt < 0)); simpl; [repeat split; discriminate |].
  destruct (draw_grid _ _ (n + 1) m (seed_state s)) as [a g1]. simpl.
  repeat split.
Qed.

Lemma attr_blind {A} (field : PriceSpec -> option A) : generator_blind (attr field).
Proof.
  intros st st' Hspec. unfold attr, getattr, ret, raise. rewrite <- Hspec.
  destruct (field (px_spec st)); simpl; split; first [reflexivity | exact Hspec].
Qed.

Lemma attr_default_blind {A} (field : PriceSpec -> option A) (d : A) :
  generator_blind (attr_default field d).
Proof.
  intros st st' Hspec. unfold attr_default. simpl. rewrite <- Hspec.
  split; first [reflexivity | exact Hspec].
Qed.

Lemma lift_blind {A} (r : result A) : generator_blind (lift r).
Proof. intros st st' Hspec. unfold lift. simpl. split; [reflexivity | exact Hspec]. Qed.

Lemma bind_blind {A B} (m : M state A) (k : A -> M state B) :
  generator_blind m -> (forall a, generator_blind (k a)) -> generator_blind (bind m k).
Proof.
  intros Hm Hk st st' Hspec. unfold bind.
  destruct (Hm st st' Hspec) as [Hout Hps].
  destruct (m st) as [[a | e] s1], (m st') as [[a' | e'] s1']; simpl in *;
    try discriminate Hout.
  - injection Hout as <-. exact (Hk a s1 s1' Hps).
  - injection Hout as <-. split; [reflexivity | assumption].
Qed.

(** After a computation that leaves equal states whenever it returns,
    anything may follow. *)
Lemma bind_after_reseeding {A B} (m : M state A) (k : A -> M state B) :
  generator_blind m ->
  (forall st st' a, px_spec st = px_spec st' -> fst (m st) = Ok a -> snd (m st) = snd (m st')) ->
  generator_blind (bind m k).
Proof.
  intros Hm Hsync st st' Hspec. unfold bind.
  destruct (Hm st st' Hspec) as [Hout Hps].
  pose proof (Hsync st st') as Hst.
  destruct (m st) as [[a | e] s1], (m st') as [[a' | e'] s1']; simpl in *;
    try discriminate Hout.
  - injection Hout as <-. rewrite (Hst a Hspec eq_refl). split; reflexivity.
  - injection Hout as <-. split; [reflexivity | assumption].
Qed.

(** The whole Monte-Carlo pricer is blind to the generator it finds. *)
Lemma calc_MC_blind (o : Quanto.t) : generator_blind (_calc_MC o).
Proof.
  unfold _calc_MC.
  apply bind_blind; [apply attr_blind | intros d].
  apply bind_blind; [apply attr_blind | intros vx].
  apply bind_blind; [apply attr_blind | intros rho].
  apply bind_blind; [apply attr_default_blind | intros n].
  apply bind_blind; [apply attr_default_blind | intros m].
  apply bind_blind; [apply lift_blind | intros step].
  apply bind_blind; [apply lift_blind | intros c].
  apply bind_after_reseeding.
  - intros st st' Hspec.
    destruct (simulate_paths_same_spec o (MC_foreign_numeraire_dividend_yield o vx rho)
                step n m st st' Hspec) as (Hout & Hps & _).
    split; assumption.
  - intros st st' S Hspec HS.
    destruct (simulate_paths_same_spec o (MC_foreign_numeraire_dividend_yield o vx rho)
                step n m st st' Hspec) as (_ & _ & Hst).
    exact (Hst S HS).
Qed.

End QuantoFacts.

(** ** Claims on the quanto pricers *)

Section QuantoClaims.
Import Quanto QuantoSpec.

(** C3.  For every rho, sigma, sigma_fx, r, q and r_f, with no range
    restriction on any of them, the foreign numeraire dividend yield that
    the lattice pricer computes and the one that the Monte-Carlo pricer
    computes are both q' = r_f - ((r - q) + rho * sigma * sigma_fx), the
    output of QuantoAdjuster; they are total functions of the six numbers,
    so they neither raise nor touch any state. *)
Theorem quanto_adjustment_exact (rho sigma sigma_fx r q r_f S0 T : R)
    (right : option string) (K : option R) :
  let o := Quanto.mk (mkStock S0 sigma q) right K T r r_f in
  LT_foreign_numeraire_dividend_yield o sigma_fx rho
    = r_f - ((r - q) + rho * sigma * sigma_fx) /\
  MC_foreign_numeraire_dividend_yield o sigma_fx rho
    = r_f - ((r - q) + rho * sigma * sigma_fx) /\
  Spec.QuantoAdjuster rho sigma sigma_fx r q r_f
    = r_f - ((r - q) + rho * sigma * sigma_fx).
Proof. repeat split. Qed.

Context {np : Numpy} {engine : AmericanEngine}.

(** C6.  A lattice pricing call returns what the external American engine
    returns on the synthetic contract: spot S0, volatility sigma and yield
    q' = QuantoAdjuster(rho, sigma, sigma_fx, r, q, r_f), with the right,
    the strike K, the maturity T and the rate r_f of the quanto, the step
    count (3 when none is given) and the history flag.  The [px_spec] of
    the engine replaces that of the quanto as it is; when the engine
    raises, so does the call. *)
Theorem calc_LT_delegates (o : Quanto.t) (nsteps npaths : option nat) (keep_hist : bool)
    (sigma_fx rho : R) (seed0 : Z) (degree : option Z) (st : state) :
  calc_px o "LT" nsteps npaths keep_hist sigma_fx rho seed0 degree st
  = match Spec.lattice_result (S0 (ref o)) (vol (ref o)) (q (ref o)) (rf_r o) (frf_r o)
            (right o) (K o) (T o) sigma_fx rho (default 3%nat nsteps) keep_hist with
    | Ok spec => (Ok ReturnSelf, with_px_spec spec st)
    | Raise e =>
        (Raise e,
         with_px_spec (fresh_spec "LT" nsteps npaths keep_hist sigma_fx rho degree) st)
    end.
Proof.
  unfold calc_px. simpl.
  unfold bind, set_px_spec, modify, _calc_LT, bind, attr, attr_default, getattr, ret, lift.
  simpl. unfold Spec.lattice_result, LT_foreign_numeraire_dividend_yield,
    Spec.QuantoAdjuster.
  destruct (American_calc_px_LT _ _ _ _ _ _ _); reflexivity.
Qed.

(** C4.  Two Monte-Carlo pricing calls with the same contract, sigma_fx,
    rho, n_steps, n_paths, deg and seed give the same outcome, the same
    exception or the same recorded price, whatever state the shared
    generator and [px_spec] were in before each call. *)
Theorem calc_px_MC_deterministic (o : Quanto.t) (nsteps npaths : option nat)
    (keep_hist : bool) (sigma_fx rho : R) (seed0 : Z) (degree : option Z)
    (st st' : state) :
  fst (calc_px o "MC" nsteps npaths keep_hist sigma_fx rho seed0 degree st)
    = fst (calc_px o "MC" nsteps npaths keep_hist sigma_fx rho seed0 degree st') /\
  px_spec (snd (calc_px o "MC" nsteps npaths keep_hist sigma_fx rho seed0 degree st))
    = px_spec (snd (calc_px o "MC" nsteps npaths keep_hist sigma_fx rho seed0 degree st')).
Proof.
  unfold calc_px. simpl. unfold bind at 1 2, set_px_spec, modify.
  apply calc_MC_blind. reflexivity.
Qed.

(** C1.  For a quanto contract priced with n_steps >= 1 and n_paths >= 1,
    once the simulation has returned the grid S, the Monte-Carlo pricer
    records the price of the reference recurrence on S: payout over the
    whole grid, for t from n_steps - 1 down to 1 a degree-deg fit of
    value[t+1,.] * df on S[t,.] over every path and the exercise decision
    payout > C, then value[0,.] = value[1,.] * df and the mean over the
    paths, with df = e^(-r_f * dt) and dt = T / n_steps; it raises what the
    fit raises.  For n_steps = 1 no fit is made and the price is the mean
    of the terminal payout times df. *)
Theorem calc_MC_reference_recurrence (o : Quanto.t) (st st1 : state) (d : Z)
    (sigma_fx rho k : R) (c : ascii) (n m : nat) (S : list (list R)) :
  nsteps (px_spec st) = Some n -> npaths (px_spec st) = Some m ->
  (1 <= n)%nat -> (1 <= m)%nat ->
  deg (px_spec st) = Some d -> vol_ex (px_spec st) = Some sigma_fx ->
  correlation (px_spec st) = Some rho ->
  K o = Some k -> lower_first (right o) = Ok c ->
  simulate_paths o
    (Spec.QuantoAdjuster rho (vol (ref o)) sigma_fx (rf_r o) (q (ref o)) (frf_r o))
    (T o / INR n) n m st = (Ok S, st1) ->
  _calc_MC o st
  = match Spec.lsm_price S n k (signCP c) (exp (- (frf_r o * (T o / INR n)))) d with
    | Ok p => (Ok ReturnSelf, with_px p st1)
    | Raise e => (Raise e, st1)
    end /\
  (n = 1%nat ->
   _calc_MC o st
   = (Ok ReturnSelf,
      with_px (mean (map (fun x => x * exp (- (frf_r o * (T o / INR n))))
                         (Spec.payout_at S k (signCP c) n))) st1)).
Proof.
  intros Hn Hm Hn1 Hm1 Hdeg Hvx Hrho HK Hc Hsim.
  assert (Hmain : _calc_MC o st
                  = match Spec.lsm_price S n k (signCP c)
                            (exp (- (frf_r o * (T o / INR n)))) d with
                    | Ok p => (Ok ReturnSelf, with_px p st1)
                    | Raise e => (Raise e, st1)
                    end).
  { rewrite (calc_MC_lsm o st st1 d sigma_fx rho k c n m S); try assumption.
    - unfold df, dt. rewrite Ropp_mult_distr_l. reflexivity.
    - rewrite Hn. reflexivity.
    - rewrite Hm. reflexivity. }
  split; [exact Hmain |].
  intros ->. rewrite Hmain. reflexivity.
Qed.

(** C5 (amended).  The Monte-Carlo pricer sets the generator that the
    whole process shares from the seed stored in [px_spec] and draws the
    (n_steps + 1) * n_paths variates from it: the simulated paths depend on
    the stored seed and not on the state the generator was in, and the
    call leaves the shared generator in the state reached after those
    draws. *)
Theorem calc_MC_reseeds_shared_generator (o : Quanto.t) (st : state) (d s : Z)
    (sigma_fx rho k : R) (c : ascii) (n m : nat) :
  nsteps (px_spec st) = Some n -> npaths (px_spec st) = Some m ->
  deg (px_spec st) = Some d -> vol_ex (px_spec st) = Some sigma_fx ->
  correlation (px_spec st) = Some rho -> seed (px_spec st) = Some s ->
  K o = Some k -> lower_first (right o) = Ok c ->
  (0 <= s < 2 ^ 32)%Z -> (1 <= n)%nat -> 0 <= T o -> 0 <= vol (ref o) ->
  let y := MC_foreign_numeraire_dividend_yield o sigma_fx rho in
  simulate_paths o y (dt o n) n m st
    = (Ok (paths_of o y n m s), with_generator (snd (draws o y n m s)) st) /\
  np_random (snd (_calc_MC o st)) = snd (draws o y n m s).
Proof.
  intros Hn Hm Hdeg Hvx Hrho Hseed HK Hc Hs Hn1 HT Hvol y.
  assert (Hdt : 0 <= dt o n).
  { unfold dt, Rdiv. apply Rmult_le_pos; [assumption |].
    left. apply Rinv_0_lt_compat. apply lt_0_INR. lia. }
  pose proof (simulate_paths_run o y n m s st Hseed Hs Hdt Hvol) as Hsim.
  split; [exact Hsim |].
  rewrite (calc_MC_lsm o st (with_generator (snd (draws o y n m s)) st) d sigma_fx rho k c
             n m (paths_of o y n m s) Hdeg Hvx Hrho); try assumption.
  - destruct (Spec.lsm_price _ _ _ _ _ _); reflexivity.
  - rewrite Hn. reflexivity.
  - rewrite Hm. reflexivity.
Qed.

(** C8 (amended).  A Monte-Carlo pricing call with n_steps = 0 fails
    before the generator is seeded or any path is simulated, and records no
    price.  The failure is the ZeroDivisionError of dt = T / n_steps (an
    AttributeError when no degree is stored), not a validation error; the
    step and path counts are not validated. *)
Theorem calc_px_MC_zero_steps (o : Quanto.t) (npaths : option nat) (keep_hist : bool)
    (sigma_fx rho : R) (seed0 : Z) (degree : option Z) (st : state) :
  let r := calc_px o "MC" (Some 0%nat) npaths keep_hist sigma_fx rho seed0 degree st in
  fst r = Raise (match degree with Some _ => ZeroDivisionError | None => AttributeError end)
  /\ np_random (snd r) = np_random st
  /\ px (px_spec (snd r)) = None.
Proof.
  unfold calc_px. simpl.
  unfold bind at 1, set_px_spec, modify, _calc_MC.
  unfold bind, attr, attr_default, getattr, ret, raise, lift. simpl.
  destruct degree as [d |]; simpl; [| repeat split].
  rewrite py_div_zero. repeat split.
Qed.

End QuantoClaims.

(** ** The quanto claims on the small instance *)

Section QuantoInstances.
Import Quanto QuantoSpec.
#[local] Existing Instance Demo.numpy.
#[local] Existing Instance Demo.engine.

(** Hull's contract with two steps, three paths and a fit of degree 0. *)
Lemma calc_MC_reference_recurrence_witness :
  let o := Demo.quanto in
  let st := Demo.mc_state 2 3 in
  let y := Spec.QuantoAdjuster 0.2 0.25 0.12 0.03 0.015 0.05 in
  _calc_MC o st
  = match Spec.lsm_price (paths_of o y 2 3 1) 2 1200 1 (exp (- (0.05 * (2 / INR 2)))) 0 with
    | Ok p => (Ok ReturnSelf, with_px p (with_generator (snd (draws o y 2 3 1)) st))
    | Raise e => (Raise e, with_generator (snd (draws o y 2 3 1)) st)
    end.
Proof.
  intros o st y.
  refine (proj1 (calc_MC_reference_recurrence o st
                   (with_generator (snd (draws o y 2 3 1)) st) 0 0.12 0.2 1200 "c" 2 3
                   (paths_of o y 2 3 1) eq_refl eq_refl _ _ eq_refl eq_refl eq_refl
                   eq_refl eq_refl _)).
  - lia.
  - lia.
  - apply (simulate_paths_run o y 2 3 1 st).
    + reflexivity.
    + lia.
    + unfold dt, o. simpl. lra.
    + unfold o. simpl. lra.
Defined.

(** One step and one path: two variates are drawn after seeding with 1. *)
Lemma calc_MC_reseeds_shared_generator_witness :
  np_random (snd (_calc_MC Demo.quanto (Demo.mc_state 1 1))) = (1%Z, 2%nat).
Proof.
  refine (proj2 (calc_MC_reseeds_shared_generator Demo.quanto (Demo.mc_state 1 1)
                   0 1 0.12 0.2 1200 "c" 1 1 eq_refl eq_refl eq_refl eq_refl eq_refl
                   eq_refl eq_refl eq_refl _ _ _ _)).
  - lia.
  - lia.
  - simpl. lra.
  - simpl. lra.
Defined.

(** C5 as stated fails: a call with seed = 42 finds the shared generator
    in the state (7, 3) and leaves it in the state reached from seed 1
    after two draws. *)
Lemma calc_MC_reseeds_shared_generator_counterexample :
  let st' := snd (calc_px Demo.quanto "MC" (Some 1%nat) (Some 1%nat) false 0.12 0.2 42
                    (Some 0%Z) Demo.idle_state) in
  np_random Demo.idle_state = (7%Z, 3%nat) /\
  np_random st' = (1%Z, 2%nat) /\
  np_random st' <> np_random Demo.idle_state.
Proof.
  assert (Hrun : np_random (snd (_calc_MC Demo.quanto (Demo.mc_state 1 1))) = (1%Z, 2%nat)).
  { rewrite (calc_MC_lsm Demo.quanto (Demo.mc_state 1 1) _ 0 0.12 0.2 1200 "c" 1 1 _
               eq_refl eq_refl eq_refl eq_refl eq_refl eq_refl eq_refl ltac:(lia)
               (simulate_paths_run Demo.quanto _ 1 1 1 (Demo.mc_state 1 1) eq_refl
                  ltac:(lia) ltac:(unfold dt; simpl; lra) ltac:(simpl; lra))).
    destruct (Spec.lsm_price _ _ _ _ _ _); reflexivity. }
  simpl. split; [reflexivity |].
  change (snd (calc_px Demo.quanto "MC" (Some 1%nat) (Some 1%nat) false 0.12 0.2 42
                 (Some 0%Z) Demo.idle_state))
    with (snd (_calc_MC Demo.quanto (Demo.mc_state 1 1))).
  rewrite Hrun. split; [reflexivity | discriminate].
Qed.

(** C8 as stated fails: with n_paths = 0 and n_steps = 1 the call is not
    refused.  The generator is seeded, the empty grid is built and the
    mean of an empty row is recorded as the price. *)
Lemma calc_px_MC_zero_steps_counterexample :
  let r := calc_px Demo.quanto "MC" (Some 1%nat) (Some 0%nat) false 0.12 0.2 1 (Some 0%Z)
             Demo.idle_state in
  fst r = Ok ReturnSelf /\
  px (px_spec (snd r)) = Some (mean []) /\
  np_random (snd r) = (1%Z, 0%nat).
Proof.
  assert (Hrun : _calc_MC Demo.quanto (Demo.mc_state 1 0)
                 = (Ok ReturnSelf,
                    with_px (mean []) (with_generator (1%Z, 0%nat) (Demo.mc_state 1 0)))).
  { rewrite (calc_MC_lsm Demo.quanto (Demo.mc_state 1 0) _ 0 0.12 0.2 1200 "c" 1 0 _
               eq_refl eq_refl eq_refl eq_refl eq_refl eq_refl eq_refl ltac:(lia)
               (simulate_paths_run Demo.quanto _ 1 0 1 (Demo.mc_state 1 0) eq_refl
                  ltac:(lia) ltac:(unfold dt; simpl; lra) ltac:(simpl; lra))).
    reflexivity. }
  change (calc_px Demo.quanto "MC" (Some 1%nat) (Some 0%nat) false 0.12 0.2 1 (Some 0%Z)
            Demo.idle_state)
    with (_calc_MC Demo.quanto (Demo.mc_state 1 0)).
  rewrite Hrun. repeat split.
Qed.

End QuantoInstances.

(** * Further properties *)

(** ** The normal distribution function *)

Lemma norm_pdf_even (t : R) : norm_pdf (- t) = norm_pdf t.
Proof. unfold norm_pdf. f_equal. f_equal. lra. Qed.

Lemma antiderivative_restrict (f g : R -> R) (a b c d : R) :
  antiderivative f g a b -> a <= c -> c <= d -> d <= b -> antiderivative f g c d.
Proof.
  intros [Hd _] Hac Hcd Hdb. split; [| exact Hcd].
  intros x Hx. apply Hd. lra.
Qed.

(** The integral of a continuous function is the increase of any of its
    antiderivatives. *)
Lemma integral_of_antiderivative (f g : R -> R) (a b : R) (pr : Riemann_integrable f a b) :
  (forall x, continuity_pt f x) -> antiderivative f g a b ->
  RiemannInt pr = g b - g a.
Proof.
  intros Hc Hg. destruct Hg as [Hd Hab].
  pose (C0 := fun (x : R) (_ : a <= x <= b) => Hc x).
  rewrite (RiemannInt_P20 Hab (FTC_P1 Hab C0) pr).
  destruct (antiderivative_Ucte f _ g a b (RiemannInt_P29 Hab C0) (conj Hd Hab)) as [k Hk].
  rewrite (Hk b) by lra. rewrite (Hk a) by lra. lra.
Qed.

Lemma gauss_integral_symmetric (a : R) (H0 : 0 <= a) (H1 : - a <= 0) :
  RiemannInt (norm_pdf_integrable 0 a H0) = RiemannInt (norm_pdf_integrable (- a) 0 H1).
Proof.
  assert (Haa : - a <= a) by lra.
  pose (C0 := fun (x : R) (_ : - a <= x <= a) => norm_pdf_continuous x).
  pose (g := primitive Haa (FTC_P1 Haa C0)).
  assert (Hg : antiderivative norm_pdf g (- a) a) by apply RiemannInt_P29.
  assert (Hg2 : antiderivative norm_pdf (fun t => - g (- t)) (- a) a).
  { split; [| exact Haa]. intros x Hx.
    destruct Hg as [Hd _]. destruct (Hd (- x)) as [pr Hpr]; [lra |].
    assert (Hlim : derivable_pt_lim (fun t => - g (- t)) x (norm_pdf x)).
    { replace (norm_pdf x) with (- (norm_pdf (- x) * -1))
        by (rewrite norm_pdf_even; lra).
      apply (derivable_pt_lim_opp (fun t => g (- t))).
      apply (derivable_pt_lim_comp (fun t => - t) g).
      - exact (derivable_pt_lim_opp id x 1 (derivable_pt_lim_id x)).
      - rewrite Hpr. apply (derive_pt_eq_1 g (- x) _ pr). reflexivity. }
    exists (exist _ (norm_pdf x) Hlim). symmetry. apply derive_pt_eq_0. exact Hlim. }
  rewrite (integral_of_antiderivative norm_pdf g 0 a _ norm_pdf_continuous
             (antiderivative_restrict norm_pdf g (- a) a 0 a Hg H1 H0 (Rle_refl a))).
  rewrite (integral_of_antiderivative norm_pdf (fun t => - g (- t)) (- a) 0 _
             norm_pdf_continuous
             (antiderivative_restrict norm_pdf (fun t => - g (- t)) (- a) a (- a) 0 Hg2
                (Rle_refl (- a)) H1 H0)).
  rewrite Ropp_involutive, Ropp_0. lra.
Qed.

(** Phi(x) + Phi(-x) = 1. *)
Lemma Phi_symmetric (x : R) : Phi x + Phi (- x) = 1.
Proof.
  assert (Hpos : forall a, 0 < a -> Phi a + Phi (- a) = 1).
  { intros a Ha. unfold Phi.
    destruct (Rle_dec 0 a) as [H0 | H0]; [| exfalso; lra].
    destruct (Rle_dec 0 (- a)) as [H1 | H1]; [exfalso; lra |].
    rewrite (gauss_integral_symmetric a H0 (Rlt_le _ _ (Rnot_le_lt _ _ H1))).
    generalize (RiemannInt (norm_pdf_integrable (- a) 0 (Rlt_le _ _ (Rnot_le_lt _ _ H1)))).
    intros I. lra. }
  destruct (Rtotal_order x 0) as [Hx | [-> | Hx]].
  - rewrite <- (Ropp_involutive x) at 1. rewrite Rplus_comm. apply Hpos. lra.
  - rewrite Ropp_0. unfold Phi. destruct (Rle_dec 0 0) as [H0 | H0]; [| exfalso; lra].
    rewrite RiemannInt_P9. lra.
  - apply Hpos. exact Hx.
Qed.

(** ** More on the forward-start pricer *)

Section ForwardStartMore.
Import ForwardStart ForwardStartSpec ForwardStartOps.

Ltac demo_fields :=
  cbv [Demo.fwd_start Demo.fwd_zero_strike Demo.fwd_zero_vol Demo.fwd_chicken
       with_right with_T_s scaled strike K S0 vol q ref T T_s rf_r right].

(** With a worthless underlying and a positive strike, [math.log] is
    called on zero. *)
Lemma calc_BS_zero_spot_raises (o : ForwardStart.t) (st : state) (c : ascii) :
  lower_first (right o) = Ok c ->
  (c = "c" \/ c = "p")%char ->
  vol (ref o) >= 0 -> T o > 0 -> T_s o >= 0 -> S0 (ref o) = 0 -> strike o > 0 ->
  rf_r o >= 0 -> q (ref o) >= 0 ->
  _calc_BS o st = (Raise ValueError, st).
Proof.
  intros Hc Hcp Hvol HT HTs HS HK Hr Hq.
  unfold _calc_BS. rewrite Hc. fold (strike o). rewrite HS.
  unfold bind at 1.
  rewrite py_assert_true by (destruct Hcp as [-> | ->]; reflexivity).
  repeat (unfold bind at 1;
          rewrite py_assert_true by (apply bool_decide_eq_true_2; lra)).
  unfold bind, lift.
  rewrite py_div_ok by lra.
  rewrite py_log_domain by (unfold Rdiv; rewrite Rmult_0_l; lra).
  reflexivity.
Qed.

(** The closed forms of a call and a put differ by the forward. *)
Lemma closed_form_parity (S0 K sigma r q T T_s : R) :
  Spec.call_price S0 K sigma r q T T_s - Spec.put_price S0 K sigma r q T T_s
  = (S0 * exp (- (q * T)) - K * exp (- (r * T))) * exp (- (q * T_s)).
Proof.
  unfold Spec.call_price, Spec.put_price.
  pose proof (Phi_symmetric (Spec.d1 S0 K sigma r q T)) as H1.
  pose proof (Phi_symmetric (Spec.d2 S0 K sigma r q T)) as H2.
  replace (Phi (- Spec.d1 S0 K sigma r q T)) with (1 - Phi (Spec.d1 S0 K sigma r q T)) by lra.
  replace (Phi (- Spec.d2 S0 K sigma r q T)) with (1 - Phi (Spec.d2 S0 K sigma r q T)) by lra.
  ring.
Qed.

(** X1.  Put-call parity of the recorded prices: for a contract with
    sigma > 0, T > 0, T_s >= 0, S0 > 0, K > 0, r >= 0 and q >= 0, pricing
    it as a call and as a put records prices c and p with
    c - p = (S0 e^(-qT) - K e^(-rT)) e^(-q T_s). *)
Theorem calc_BS_put_call_parity (o : ForwardStart.t) (st : state) :
  vol (ref o) > 0 -> T o > 0 -> T_s o >= 0 -> S0 (ref o) > 0 -> strike o > 0 ->
  rf_r o >= 0 -> q (ref o) >= 0 ->
  exists c p : R,
    _calc_BS (with_right "call" o) st = (Ok ReturnSelf, priced c st) /\
    _calc_BS (with_right "put" o) st = (Ok ReturnSelf, priced p st) /\
    c - p = (S0 (ref o) * exp (- (q (ref o) * T o)) - strike o * exp (- (rf_r o * T o)))
            * exp (- (q (ref o) * T_s o)).
Proof.
  intros Hvol HT HTs HS HK Hr Hq.
  exists (closed_form (with_right "call" o) "c"), (closed_form (with_right "put" o) "p").
  split; [| split].
  - apply calc_BS_priced; first [reflexivity | assumption | left; reflexivity].
  - apply calc_BS_priced; first [reflexivity | assumption | right; reflexivity].
  - apply closed_form_parity.
Qed.

Lemma calc_BS_put_call_parity_witness :
  exists c p : R,
    _calc_BS (with_right "call" Demo.fwd_start) Demo.fwd_state
      = (Ok ReturnSelf, priced c Demo.fwd_state) /\
    _calc_BS (with_right "put" Demo.fwd_start) Demo.fwd_state
      = (Ok ReturnSelf, priced p Demo.fwd_state) /\
    c - p = (50 * exp (- (0.05 * 0.5)) - 50 * exp (- (0.1 * 0.5))) * exp (- (0.05 * 0.5)).
Proof.
  refine (calc_BS_put_call_parity Demo.fwd_start Demo.fwd_state _ _ _ _ _ _ _).
  all: demo_fields; lra.
Defined.

(** X2.  The start time enters the price only through the factor
    e^(-q T_s): the price of a valid contract is the price of the same
    contract started at once, times e^(-q T_s). *)
Theorem calc_BS_start_time_factor (o : ForwardStart.t) (st : state) (c : ascii) :
  lower_first (right o) = Ok c -> (c = "c" \/ c = "p")%char ->
  vol (ref o) > 0 -> T o > 0 -> T_s o >= 0 -> S0 (ref o) > 0 -> strike o > 0 ->
  rf_r o >= 0 -> q (ref o) >= 0 ->
  exists p0 : R,
    _calc_BS (with_T_s 0 o) st = (Ok ReturnSelf, priced p0 st) /\
    _calc_BS o st = (Ok ReturnSelf, priced (p0 * exp (- (q (ref o) * T_s o))) st).
Proof.
  intros Hc Hcp Hvol HT HTs HS HK Hr Hq.
  exists (closed_form (with_T_s 0 o) c). split.
  - apply calc_BS_priced; try assumption. simpl. lra.
  - rewrite (calc_BS_priced o st c) by assumption. do 2 f_equal.
    unfold closed_form, Spec.call_price, Spec.put_price, with_T_s, strike. simpl.
    rewrite Rmult_0_r, Ropp_0, exp_0.
    destruct (Ascii.eqb c "c"); ring.
Qed.

Lemma calc_BS_start_time_factor_witness :
  exists p0 : R,
    _calc_BS (with_T_s 0 Demo.fwd_start) Demo.fwd_state
      = (Ok ReturnSelf, priced p0 Demo.fwd_state) /\
    _calc_BS Demo.fwd_start Demo.fwd_state
      = (Ok ReturnSelf, priced (p0 * exp (- (0.05 * 0.5))) Demo.fwd_state).
Proof.
  refine (calc_BS_start_time_factor Demo.fwd_start Demo.fwd_state "c" eq_refl
            (or_introl eq_refl) _ _ _ _ _ _ _).
  all: demo_fields; lra.
Defined.

(** X3.  The price is homogeneous of degree one in the spot and the
    strike: multiplying S0, and K when it is set, by lam > 0 multiplies the
    recorded price by lam. *)
Theorem calc_BS_homogeneous (o : ForwardStart.t) (st : state) (c : ascii) (lam : R) :
  lam > 0 ->
  lower_first (right o) = Ok c -> (c = "c" \/ c = "p")%char ->
  vol (ref o) > 0 -> T o > 0 -> T_s o >= 0 -> S0 (ref o) > 0 -> strike o > 0 ->
  rf_r o >= 0 -> q (ref o) >= 0 ->
  exists p : R,
    _calc_BS o st = (Ok ReturnSelf, priced p st) /\
    _calc_BS (scaled lam o) st = (Ok ReturnSelf, priced (lam * p) st).
Proof.
  intros Hlam Hc Hcp Hvol HT HTs HS HK Hr Hq.
  assert (Hstrike : strike (scaled lam o) = lam * strike o).
  { unfold strike, scaled. simpl. destruct (K o); reflexivity. }
  exists (closed_form o c). split; [apply calc_BS_priced; assumption |].
  rewrite (calc_BS_priced (scaled lam o) st c); try assumption.
  - do 2 f_equal.
    unfold closed_form, Spec.call_price, Spec.put_price, Spec.d2, Spec.d1.
    rewrite Hstrike. simpl.
    replace (lam * S0 (ref o) / (lam * strike o)) with (S0 (ref o) / strike o)
      by (field; split; lra).
    destruct (Ascii.eqb c "c"); ring.
  - simpl. nra.
  - rewrite Hstrike. nra.
Qed.

Lemma calc_BS_homogeneous_witness :
  exists p : R,
    _calc_BS Demo.fwd_start Demo.fwd_state = (Ok ReturnSelf, priced p Demo.fwd_state) /\
    _calc_BS (scaled 2 Demo.fwd_start) Demo.fwd_state
      = (Ok ReturnSelf, priced (2 * p) Demo.fwd_state).
Proof.
  refine (calc_BS_homogeneous Demo.fwd_start Demo.fwd_state "c" 2 _ eq_refl
            (or_introl eq_refl) _ _ _ _ _ _ _).
  all: demo_fields; lra.
Defined.

(** X4.  A worthless underlying is not priced: with S0 = 0 and the other
    fields valid, the pricer raises ValueError when K > 0 and
    ZeroDivisionError when the strike is zero, which is the case of an
    unset K; the state is unchanged. *)
Theorem calc_BS_zero_spot (o : ForwardStart.t) (st : state) (c : ascii) :
  lower_first (right o) = Ok c -> (c = "c" \/ c = "p")%char ->
  vol (ref o) >= 0 -> T o > 0 -> T_s o >= 0 -> S0 (ref o) = 0 ->
  rf_r o >= 0 -> q (ref o) >= 0 ->
  (strike o > 0 -> _calc_BS o st = (Raise ValueError, st)) /\
  (strike o = 0 -> _calc_BS o st = (Raise ZeroDivisionError, st)) /\
  (K o = None -> _calc_BS o st = (Raise ZeroDivisionError, st)).
Proof.
  intros Hc Hcp Hvol HT HTs HS Hr Hq. split; [| split].
  - intros HK. apply (calc_BS_zero_spot_raises o st c); assumption.
  - intros HK. apply (calc_BS_zero_strike o st c); try assumption. lra.
  - intros HK. apply (calc_BS_zero_strike o st c); try assumption; [lra |].
    unfold strike. rewrite HK. exact HS.
Qed.

Lemma calc_BS_zero_spot_witness :
  _calc_BS (scaled 0 Demo.fwd_start) Demo.fwd_state = (Raise ZeroDivisionError, Demo.fwd_state).
Proof.
  refine (proj2 (proj2 (calc_BS_zero_spot (scaled 0 Demo.fwd_start) Demo.fwd_state "c"
                          eq_refl (or_introl eq_refl) _ _ _ _ _ _)) eq_refl).
  all: demo_fields; lra.
Defined.

(** X5.  With zero volatility the pricer never records a price, whatever
    the other fields are: it does not return the object and [px_spec] is
    as before. *)
Theorem calc_BS_zero_volatility_never_priced (o : ForwardStart.t) (st : state) :
  vol (ref o) = 0 ->
  fst (_calc_BS o st) <> Ok ReturnSelf /\ px_spec (snd (_calc_BS o st)) = px_spec st.
Proof.
  intros Hvol.
  destruct (lower_first (right o)) as [c | e] eqn:Hc;
    [| rewrite (calc_BS_not_a_string o st e Hc); split; [discriminate | reflexivity]].
  destruct (Ascii.eqb c "c" || Ascii.eqb c "p")%bool eqn:Hright.
  2:{ destruct (calc_BS_rejects o st c Hc) as [msg ->];
        [| split; [discriminate | reflexivity]].
      left. apply orb_false_iff in Hright. destruct Hright as [H1 H2].
      apply Ascii.eqb_neq in H1, H2. split; assumption. }
  apply orb_true_iff in Hright. rewrite !Ascii.eqb_eq in Hright.
  destruct (Rle_dec (T o) 0) as [HT | HT];
    [destruct (calc_BS_rejects o st c Hc) as [msg ->];
       [tauto | split; [discriminate | reflexivity]] |].
  destruct (Rlt_dec (T_s o) 0) as [HTs | HTs];
    [destruct (calc_BS_rejects o st c Hc) as [msg ->];
       [tauto | split; [discriminate | reflexivity]] |].
  destruct (Rlt_dec (S0 (ref o)) 0) as [HS | HS];
    [destruct (calc_BS_rejects o st c Hc) as [msg ->];
       [tauto | split; [discriminate | reflexivity]] |].
  destruct (Rlt_dec (strike o) 0) as [HK | HK];
    [destruct (calc_BS_rejects o st c Hc) as [msg ->];
       [tauto | split; [discriminate | reflexivity]] |].
  destruct (Rlt_dec (rf_r o) 0) as [Hr | Hr];
    [destruct (calc_BS_rejects o st c Hc) as [msg ->];
       [tauto | split; [discriminate | reflexivity]] |].
  destruct (Rlt_dec (q (ref o)) 0) as [Hq | Hq];
    [destruct (calc_BS_rejects o st c Hc) as [msg ->];
       [tauto | split; [discriminate | reflexivity]] |].
  destruct (Req_dec (strike o) 0) as [HK0 | HK0].
  { rewrite (calc_BS_zero_strike o st c); try assumption; try lra.
    split; [discriminate | reflexivity]. }
  destruct (Req_dec (S0 (ref o)) 0) as [HS0 | HS0].
  { rewrite (calc_BS_zero_spot_raises o st c); try assumption; try lra.
    split; [discriminate | reflexivity]. }
  rewrite (calc_BS_zero_vol o st c); try assumption; try lra.
  split; [discriminate | reflexivity].
Qed.

Lemma calc_BS_zero_volatility_never_priced_witness :
  fst (_calc_BS Demo.fwd_zero_vol Demo.fwd_state) <> Ok ReturnSelf /\
  px_spec (snd (_calc_BS Demo.fwd_zero_vol Demo.fwd_state)) = px_spec Demo.fwd_state.
Proof.
  apply (calc_BS_zero_volatility_never_priced Demo.fwd_zero_vol Demo.fwd_state).
  reflexivity.
Defined.

(** What leaves the state alone, and what follows it. *)
Lemma py_assert_stateless (b : bool) (msg : string) : stateless (py_assert b msg).
Proof. intros st. destruct b; reflexivity. Qed.

Lemma lift_stateless {A} (r : result A) : stateless (lift r).
Proof. intros st. reflexivity. Qed.

Lemma bind_writes_only_on_success {A} (m : M state A) (k : A -> M state returned) :
  stateless m -> (forall a, writes_only_on_success (k a)) ->
  writes_only_on_success (bind m k).
Proof.
  intros Hm Hk st. unfold bind. specialize (Hm st).
  destruct (m st) as [[a | e] s1]; simpl in Hm; subst s1.
  - apply Hk.
  - right. split; [discriminate | reflexivity].
Qed.

(** [_calc_BS] writes [px_spec] only when it returns the object. *)
Lemma calc_BS_writes_only_on_success (o : ForwardStart.t) :
  writes_only_on_success (_calc_BS o).
Proof.
  unfold _calc_BS.
  destruct (lower_first (right o)) as [c | e].
  2:{ intros st. right. split; [discriminate | reflexivity]. }
  do 8 (apply bind_writes_only_on_success; [apply py_assert_stateless | intros _]).
  do 5 (apply bind_writes_only_on_success; [apply lift_stateless | intros ?]).
  apply bind_writes_only_on_success.
  - intros st. destruct (Ascii.eqb c "c"); [reflexivity |].
    destruct (Ascii.eqb c "p"); reflexivity.
  - intros p st. left. reflexivity.
Qed.

(** X6.  [calc_px] starts from a new [PriceSpec], and a price is found in
    it afterwards only when the method is BS in some spelling of upper and
    lower case and the call returned the object: a failed call, or a call
    of another method, never leaves a price behind, not even an earlier
    one. *)
Theorem calc_px_prices_only_by_BS (o : ForwardStart.t) (method : string)
    (nsteps npaths : option nat) (keep_hist : bool) (st : state) :
  px (px_spec (snd (calc_px o method nsteps npaths keep_hist st))) <> None ->
  upper method = "BS"%string /\
  fst (calc_px o method nsteps npaths keep_hist st) = Ok ReturnSelf.
Proof.
  unfold calc_px, bind, set_px_spec, modify. cbv beta iota.
  destruct (String.eqb (upper method) "BS") eqn:HBS.
  - apply String.eqb_eq in HBS. intros Hpx. split; [exact HBS |].
    match goal with
    | |- fst (_calc_BS o ?s) = _ =>
        destruct (calc_BS_writes_only_on_success o s) as [Hok | [_ Hsame]];
        [exact Hok | rewrite Hsame in Hpx; simpl in Hpx; contradiction]
    end.
  - destruct (String.eqb (upper method) "LT"); [simpl; contradiction |].
    destruct (String.eqb (upper method) "MC"); [simpl; contradiction |].
    destruct (String.eqb (upper method) "FD"); simpl; contradiction.
Qed.

Lemma calc_px_prices_only_by_BS_witness :
  upper "bs" = "BS"%string /\
  fst (calc_px Demo.fwd_start "bs" None None false Demo.fwd_state) = Ok ReturnSelf.
Proof.
  apply (calc_px_prices_only_by_BS Demo.fwd_start "bs" None None false Demo.fwd_state).
  unfold calc_px, bind, set_px_spec, modify. cbv beta iota. simpl String.eqb. cbv iota.
  rewrite (calc_BS_priced Demo.fwd_start _ "c");
    first [reflexivity | left; reflexivity | demo_fields; lra | idtac].
  discriminate.
Defined.

(** X7.  The methods without a pricer do not fail fast: for any contract,
    valid or not, LT and FD hand the object back with a new [PriceSpec]
    that holds no price, MC raises NameError, and any other name raises
    AttributeError. *)
Theorem calc_px_other_methods (o : ForwardStart.t) (method : string)
    (nsteps npaths : option nat) (keep_hist : bool) (st : state) :
  let fresh := {| px_spec := PriceSpec_new method nsteps npaths keep_hist None None None None;
                  stdout := stdout st |} in
  (upper method = "LT"%string \/ upper method = "FD"%string ->
   calc_px o method nsteps npaths keep_hist st = (Ok ReturnSelf, fresh)) /\
  (upper method = "MC"%string ->
   calc_px o method nsteps npaths keep_hist st = (Raise NameError, fresh)) /\
  (upper method <> "BS"%string -> upper method <> "LT"%string ->
   upper method <> "MC"%string -> upper method <> "FD"%string ->
   calc_px o method nsteps npaths keep_hist st = (Raise AttributeError, fresh)).
Proof.
  unfold calc_px, bind, set_px_spec, modify. cbv beta iota zeta. split; [| split].
  - intros [-> | ->]; reflexivity.
  - intros ->. reflexivity.
  - intros H1 H2 H3 H4.
    apply String.eqb_neq in H1, H2, H3, H4. rewrite H1, H2, H3, H4. reflexivity.
Qed.

Lemma calc_px_other_methods_witness :
  calc_px Demo.fwd_zero_vol "lt" (Some 100%nat) None false Demo.fwd_state
  = (Ok ReturnSelf,
     {| px_spec := PriceSpec_new "lt" (Some 100%nat) None false None None None None;
        stdout := [] |}).
Proof.
  apply (proj1 (calc_px_other_methods Demo.fwd_zero_vol "lt" (Some 100%nat) None false
                  Demo.fwd_state)).
  left. reflexivity.
Defined.

End ForwardStartMore.

(** ** More on the quanto simulation *)

Section QuantoGrid.
Import Quanto QuantoSpec QuantoOps.
Context {np : Numpy}.

Lemma draw_row_length (loc scale : R) (cols : nat) (g : RandomState) :
  length (fst (draw_row loc scale cols g)) = cols.
Proof.
  revert g. induction cols as [| cols IH]; intros g; simpl; [reflexivity |].
  destruct (gauss g) as [z g1]. specialize (IH g1).
  destruct (draw_row loc scale cols g1) as [zs g2]. simpl in *. congruence.
Qed.

Lemma draw_row_advances (loc scale : R) (cols : nat) (g : RandomState) :
  snd (draw_row loc scale cols g) = advanced cols g.
Proof.
  unfold advanced. revert g. induction cols as [| cols IH]; intros g; [reflexivity |].
  rewrite Nat.iter_succ_r. simpl draw_row.
  destruct (gauss g) as [z g1] eqn:Hg. specialize (IH g1).
  destruct (draw_row loc scale cols g1) as [zs g2]. simpl in *. exact IH.
Qed.

Lemma draw_grid_columns (loc scale : R) (rows cols : nat) (g : RandomState) :
  Forall (fun r => length r = cols) (fst (draw_grid loc scale rows cols g)).
Proof.
  revert g. induction rows as [| rows IH]; intros g; simpl; [constructor |].
  pose proof (draw_row_length loc scale cols g) as Hrow.
  destruct (draw_row loc scale cols g) as [r g1]. specialize (IH g1).
  destruct (draw_grid loc scale rows cols g1) as [rs g2]. simpl in *.
  constructor; assumption.
Qed.

Lemma draw_grid_advances (loc scale : R) (rows cols : nat) (g : RandomState) :
  snd (draw_grid loc scale rows cols g) = advanced (rows * cols) g.
Proof.
  revert g. induction rows as [| rows IH]; intros g; [reflexivity |].
  simpl draw_grid. pose proof (draw_row_advances loc scale cols g) as Hrow.
  destruct (draw_row loc scale cols g) as [r g1]. specialize (IH g1).
  destruct (draw_grid loc scale rows cols g1) as [rs g2]. simpl in *.
  rewrite IH, Hrow. unfold advanced.
  replace (cols + rows * cols)%nat with (rows * cols + cols)%nat by lia.
  rewrite Nat.iter_add. reflexivity.
Qed.

Lemma cumsum_from_columns (m : nat) (acc : list R) (rows : list (list R)) :
  length acc = m -> Forall (fun r => length r = m) rows ->
  Forall (fun r => length r = m) (cumsum_from acc rows).
Proof.
  intros Hacc Hrows. revert acc Hacc.
  induction Hrows as [| r rows Hr _ IH]; intros acc Hacc; simpl; [constructor |].
  assert (Hlen : length (zip_with Rplus acc r) = m)
    by (rewrite length_zip_with; lia).
  constructor; [exact Hlen | apply IH; exact Hlen].
Qed.

Lemma cumsum_columns (m : nat) (rows : list (list R)) :
  Forall (fun r => length r = m) rows -> Forall (fun r => length r = m) (cumsum rows).
Proof.
  intros Hrows. destruct Hrows as [| r rows Hr Hrest]; simpl; [constructor |].
  constructor; [exact Hr | apply cumsum_from_columns; assumption].
Qed.

(** Row t of the running sums is the sum of the rows 0 .. t. *)
Lemma cumsum_from_lookup (acc : list R) (rows : list (list R)) (t : nat) :
  (t < length rows)%nat ->
  cumsum_from acc rows !! t = Some (fold_left (zip_with Rplus) (take (S t) rows) acc).
Proof.
  revert acc t. induction rows as [| r rows IH]; intros acc t Ht; simpl in Ht; [lia |].
  destruct t as [| t]; simpl.
  - reflexivity.
  - apply IH. lia.
Qed.

Lemma cumsum_lookup (rows : list (list R)) (t : nat) :
  (t < length rows)%nat -> cumsum rows !! t = Some (column_sums (take (S t) rows)).
Proof.
  intros Ht. destruct rows as [| r rows]; simpl in Ht; [lia |].
  destruct t as [| t]; simpl.
  - reflexivity.
  - apply cumsum_from_lookup. lia.
Qed.

(** What a returned simulation is made of. *)
Lemma simulate_paths_inv (o : Quanto.t) (yield : R) (n m : nat) (st st1 : state)
    (S : list (list R)) :
  simulate_paths o yield (dt o n) n m st = (Ok S, st1) ->
  exists s : Z,
    seed (px_spec st) = Some s /\
    S = paths_of o yield n m s /\
    st1 = with_generator (snd (draws o yield n m s)) st.
Proof.
  unfold simulate_paths, bind, attr, getattr, lift, ret, raise.
  destruct (seed (px_spec st)) as [s |] eqn:Hseed; [| discriminate].
  unfold np_seed. destruct (bool_decide (0 <= s < 2 ^ 32)%Z); [| discriminate].
  unfold modify. unfold py_sqrt.
  destruct (decide (0 <= dt o n)) as [Hdt | Hdt]; [| discriminate].
  unfold np_normal, raise.
  destruct (bool_decide (vol (ref o) * sqrt (dt o n) < 0)); [discriminate |].
  unfold paths_of, draws, with_generator. simpl.
  destruct (draw_grid _ _ (n + 1) m (seed_state s)) as [a g] eqn:Hdraw.
  intros [= <- <-]. exists s. rewrite Hdraw. split; [| split]; reflexivity.
Qed.

Lemma paths_of_columns (o : Quanto.t) (yield : R) (n m : nat) (s : Z) :
  Forall (fun r => length r = m) (paths_of o yield n m s).
Proof.
  unfold paths_of, draws. apply Forall_insert; [| apply length_replicate].
  apply Forall_fmap. eapply Forall_impl.
  - apply cumsum_columns. apply draw_grid_columns.
  - intros r Hr. simpl. rewrite length_map. exact Hr.
Qed.

Lemma paths_of_first_row (o : Quanto.t) (yield : R) (n m : nat) (s : Z) :
  paths_of o yield n m s !! 0%nat = Some (replicate m (S0 (ref o))).
Proof.
  unfold paths_of, draws. apply list_lookup_insert_eq.
  rewrite length_map, cumsum_rows, draw_grid_rows. lia.
Qed.

Lemma paths_of_later_row (o : Quanto.t) (yield : R) (n m : nat) (s : Z) (t : nat) :
  (1 <= t <= n)%nat ->
  paths_of o yield n m s !! t
  = Some (map (fun x => S0 (ref o) * exp x)
              (column_sums (take (t + 1) (fst (draws o yield n m s))))).
Proof.
  intros Ht. unfold paths_of.
  rewrite list_lookup_insert_ne by lia.
  rewrite list_lookup_fmap, cumsum_lookup
    by (unfold draws; rewrite draw_grid_rows; lia).
  replace (t + 1)%nat with (Datatypes.S t) by lia. reflexivity.
Qed.

Lemma paths_of_positive (o : Quanto.t) (yield : R) (n m : nat) (s : Z) :
  0 < S0 (ref o) -> Forall (Forall (fun x => 0 < x)) (paths_of o yield n m s).
Proof.
  intros HS. unfold paths_of. apply Forall_insert.
  - apply Forall_fmap. apply Forall_forall. intros r _. simpl.
    apply Forall_fmap. apply Forall_forall. intros x _. simpl.
    apply Rmult_lt_0_compat; [exact HS | apply exp_pos].
  - apply Forall_forall. intros x Hx. apply elem_of_replicate in Hx. destruct Hx as [-> _].
    exact HS.
Qed.

End QuantoGrid.

(** ** More on the backward induction *)

Section QuantoValue.
Import Quanto QuantoSpec QuantoOps.
Context {np : Numpy}.








End QuantoValue.

(** ** More on the quanto pricers *)

Section QuantoMore.
Import Quanto QuantoSpec QuantoOps.
Context {np : Numpy} {engine : AmericanEngine}.


(** X8.  The seed handed to [calc_px] has no effect: two Monte-Carlo calls
    that differ in their seed argument, and in the state of the generator
    and of [px_spec] before the call, have the same outcome and leave the
    same [px_spec]. *)
Theorem calc_px_MC_ignores_seed (o : Quanto.t) (nsteps npaths : option nat)
    (keep_hist : bool) (sigma_fx rho : R) (seed1 seed2 : Z) (degree : option Z)
    (st st' : state) :
  fst (calc_px o "MC" nsteps npaths keep_hist sigma_fx rho seed1 degree st)
    = fst (calc_px o "MC" nsteps npaths keep_hist sigma_fx rho seed2 degree st') /\
  px_spec (snd (calc_px o "MC" nsteps npaths keep_hist sigma_fx rho seed1 degree st))
    = px_spec (snd (calc_px o "MC" nsteps npaths keep_hist sigma_fx rho seed2 degree st')).
Proof.
  unfold calc_px. simpl. unfold bind at 1 2, set_px_spec, modify.
  apply calc_MC_blind. reflexivity.
Qed.

(** X9.  A returned simulation is a dense grid of n_steps + 1 rows of
    n_paths prices each, and its first row holds S0 on every path. *)
Theorem simulate_paths_grid (o : Quanto.t) (yield : R) (n m : nat) (st st1 : state)
    (S : list (list R)) :
  simulate_paths o yield (dt o n) n m st = (Ok S, st1) ->
  length S = (n + 1)%nat /\
  Forall (fun r => length r = m) S /\
  S !! 0%nat = Some (replicate m (S0 (ref o))).
Proof.
  intros Hsim. destruct (simulate_paths_inv o yield n m st st1 S Hsim) as (s & _ & -> & _).
  split; [apply paths_of_rows |]. split; [apply paths_of_columns | apply paths_of_first_row].
Qed.

(** X10.  With a positive spot every simulated price is positive. *)
Theorem simulate_paths_positive (o : Quanto.t) (yield : R) (n m : nat) (st st1 : state)
    (S : list (list R)) :
  0 < S0 (ref o) ->
  simulate_paths o yield (dt o n) n m st = (Ok S, st1) ->
  Forall (Forall (fun x => 0 < x)) S.
Proof.
  intros HS Hsim.
  destruct (simulate_paths_inv o yield n m st st1 S Hsim) as (s & _ & -> & _).
  apply paths_of_positive. exact HS.
Qed.

(** X11.  For 1 <= t <= n_steps the row t of the simulated grid is S0
    times the exponential of the sum of the rows 0 .. t of the variates
    drawn: t + 1 increments, the row 0 of the draw included, although the
    row 0 of the grid is then set to S0. *)
Theorem simulate_paths_increments (o : Quanto.t) (yield : R) (n m : nat) (s : Z)
    (st st1 : state) (S : list (list R)) (t : nat) :
  seed (px_spec st) = Some s ->
  simulate_paths o yield (dt o n) n m st = (Ok S, st1) ->
  (1 <= t <= n)%nat ->
  S !! t = Some (map (fun x => S0 (ref o) * exp x)
                     (column_sums (take (t + 1) (fst (draws o yield n m s))))).
Proof.
  intros Hseed Hsim Ht.
  destruct (simulate_paths_inv o yield n m st st1 S Hsim) as (s' & Hseed' & -> & _).
  assert (s' = s) as -> by congruence.
  apply paths_of_later_row. exact Ht.
Qed.

(** X12.  A returned simulation leaves [px_spec] alone and leaves the
    shared generator where (n_steps + 1) * n_paths variates after seeding
    put it. *)
Theorem simulate_paths_consumes (o : Quanto.t) (yield : R) (n m : nat) (s : Z)
    (st st1 : state) (S : list (list R)) :
  seed (px_spec st) = Some s ->
  simulate_paths o yield (dt o n) n m st = (Ok S, st1) ->
  np_random st1 = advanced ((n + 1) * m) (seed_state s) /\ px_spec st1 = px_spec st.
Proof.
  intros Hseed Hsim.
  destruct (simulate_paths_inv o yield n m st st1 S Hsim) as (s' & Hseed' & _ & ->).
  assert (s' = s) as -> by congruence.
  split; [| reflexivity]. unfold with_generator, draws. simpl np_random.
  apply draw_grid_advances.
Qed.



Lemma bind_ext {St A B} (m : M St A) (k k' : A -> M St B) (s : St) :
  (forall a s', k a s' = k' a s') -> bind m k s = bind m k' s.
Proof. intros Hk. unfold bind. destruct (m s) as [[a | e] s']; [apply Hk | reflexivity]. Qed.

(** X15.  The Monte-Carlo pricer does not validate [right]: a string
    whose lower-cased first character is 'c' is priced exactly as "call",
    and every other non-empty string exactly as "put". *)
Theorem calc_MC_first_character (o : Quanto.t) (st : state) (c : ascii) :
  lower_first (right o) = Ok c ->
  (c = "c"%char -> _calc_MC o st = _calc_MC (with_right "call" o) st) /\
  (c <> "c"%char -> _calc_MC o st = _calc_MC (with_right "put" o) st).
Proof.
  intros Hc. split; intros Hcc.
  - subst c. unfold _calc_MC. revert st.
    do 6 (intros st; apply bind_ext; clear st; intros ?).
    intros st. rewrite Hc. reflexivity.
  - apply Ascii.eqb_neq in Hcc. unfold _calc_MC. revert st.
    do 6 (intros st; apply bind_ext; clear st; intros ?).
    intros st. rewrite Hc. simpl lower_first.
    unfold bind at 1 3, lift at 1 5. rewrite Hcc. reflexivity.
Qed.

Lemma attr_keeps {A} (field : PriceSpec -> option A) : keeps_px_spec (attr field).
Proof. intros st. unfold attr, getattr. destruct (field (px_spec st)); reflexivity. Qed.

Lemma attr_default_keeps {A} (field : PriceSpec -> option A) (d : A) :
  keeps_px_spec (attr_default field d).
Proof. intros st. reflexivity. Qed.

Lemma lift_keeps {A} (r : result A) : keeps_px_spec (lift r).
Proof. intros st. reflexivity. Qed.

Lemma simulate_paths_keeps (o : Quanto.t) (yield step : R) (n m : nat) :
  keeps_px_spec (simulate_paths o yield step n m).
Proof.
  intros st. unfold simulate_paths, bind, attr, getattr, lift, ret, raise.
  destruct (seed (px_spec st)) as [s |]; [| reflexivity].
  unfold np_seed, modify, raise.
  destruct (bool_decide (0 <= s < 2 ^ 32)%Z); [| reflexivity].
  destruct (py_sqrt step) as [sdt | e]; [| reflexivity].
  unfold np_normal, raise.
  destruct (bool_decide (vol (ref o) * sdt < 0)); [reflexivity |].
  simpl. destruct (draw_grid _ _ (n + 1) m (seed_state s)) as [a g]. reflexivity.
Qed.

Lemma bind_records_only_on_success {A} (m : M state A) (k : A -> M state returned) :
  keeps_px_spec m -> (forall a, records_only_on_success (k a)) ->
  records_only_on_success (bind m k).
Proof.
  intros Hm Hk st. unfold bind. specialize (Hm st).
  destruct (m st) as [[a | e] s1]; simpl in Hm.
  - destruct (Hk a s1) as [Hok | Hsame]; [left; exact Hok | right; congruence].
  - right. exact Hm.
Qed.

(** [_calc_MC] writes [px_spec] only when it returns the object. *)
Lemma calc_MC_records_only_on_success (o : Quanto.t) :
  records_only_on_success (_calc_MC o).
Proof.
  unfold _calc_MC.
  do 3 (apply bind_records_only_on_success; [apply attr_keeps | intros ?]).
  do 2 (apply bind_records_only_on_success; [apply attr_default_keeps | intros ?]).
  do 2 (apply bind_records_only_on_success; [apply lift_keeps | intros ?]).
  apply bind_records_only_on_success; [apply simulate_paths_keeps | intros ?].
  do 4 (apply bind_records_only_on_success; [apply lift_keeps | intros ?]).
  intros st. left. reflexivity.
Qed.

Lemma calc_LT_records_only_on_success (o : Quanto.t) :
  records_only_on_success (_calc_LT o).
Proof.
  unfold _calc_LT.
  do 2 (apply bind_records_only_on_success; [apply attr_keeps | intros ?]).
  do 2 (apply bind_records_only_on_success; [apply attr_default_keeps | intros ?]).
  apply bind_records_only_on_success; [apply lift_keeps | intros ?].
  intros st. left. reflexivity.
Qed.

(** X16.  [calc_px] of a quanto starts from a new [PriceSpec], and a price
    is found in it afterwards only when the method is LT or MC in some
    spelling and the call returned the object: BS, FD, an unknown name or a
    call that raised never leave a price behind, not even an earlier one. *)
Theorem calc_px_quanto_prices_only_by_LT_MC (o : Quanto.t) (method : string)
    (nsteps npaths : option nat) (keep_hist : bool) (sigma_fx rho : R) (seed0 : Z)
    (degree : option Z) (st : state) :
  px (px_spec (snd (calc_px o method nsteps npaths keep_hist sigma_fx rho seed0 degree st)))
    <> None ->
  (upper method = "LT"%string \/ upper method = "MC"%string) /\
  fst (calc_px o method nsteps npaths keep_hist sigma_fx rho seed0 degree st) = Ok ReturnSelf.
Proof.
  unfold calc_px, bind, set_px_spec, modify. cbv beta iota.
  destruct (String.eqb (upper method) "BS") eqn:HBS; [simpl; contradiction |].
  destruct (String.eqb (upper method) "LT") eqn:HLT.
  - apply String.eqb_eq in HLT. intros Hpx. split; [left; exact HLT |].
    match goal with
    | |- fst (_calc_LT o ?s) = _ =>
        destruct (calc_LT_records_only_on_success o s) as [Hok | Hsame];
        [exact Hok | rewrite Hsame in Hpx; simpl in Hpx; contradiction]
    end.
  - destruct (String.eqb (upper method) "MC") eqn:HMC.
    + apply String.eqb_eq in HMC. intros Hpx. split; [right; exact HMC |].
      match goal with
      | |- fst (_calc_MC o ?s) = _ =>
          destruct (calc_MC_records_only_on_success o s) as [Hok | Hsame];
          [exact Hok | rewrite Hsame in Hpx; simpl in Hpx; contradiction]
      end.
    + destruct (String.eqb (upper method) "FD"); simpl; contradiction.
Qed.



(** X18.  When [right] is not a string or is empty, the Monte-Carlo pricer
    raises the exception of [right.lower()[0]] before the generator is
    seeded: the state is unchanged.  There is no guard as in the analytic
    pricer of the forward start. *)
Theorem calc_MC_bad_right (o : Quanto.t) (st : state) (d : Z) (vx rho : R) (e : exn) :
  deg (px_spec st) = Some d -> vol_ex (px_spec st) = Some vx ->
  correlation (px_spec st) = Some rho ->
  (1 <= default 3%nat (nsteps (px_spec st)))%nat ->
  lower_first (right o) = Raise e ->
  _calc_MC o st = (Raise e, st).
Proof.
  intros Hdeg Hvx Hrho Hn He.
  unfold _calc_MC, bind at 1 2 3 4 5, attr, attr_default, getattr, ret.
  rewrite Hdeg, Hvx, Hrho.
  unfold bind at 1, lift at 1. rewrite py_div_ok by (apply not_0_INR; lia).
  unfold bind at 1, lift at 1. rewrite He. reflexivity.
Qed.

End QuantoMore.

(** ** The further quanto properties on the small instance *)

Section QuantoMoreInstances.
Import Quanto QuantoSpec QuantoOps.
#[local] Existing Instance Demo.numpy.
#[local] Existing Instance Demo.engine.

(** One step and one path on Hull's contract. *)
Lemma demo_simulation (yield : R) :
  simulate_paths Demo.quanto yield (dt Demo.quanto 1) 1 1 (Demo.mc_state 1 1)
  = (Ok (paths_of Demo.quanto yield 1 1 1),
     with_generator (snd (draws Demo.quanto yield 1 1 1)) (Demo.mc_state 1 1)).
Proof.
  apply (simulate_paths_run Demo.quanto yield 1 1 1 (Demo.mc_state 1 1)).
  - reflexivity.
  - lia.
  - unfold dt. simpl. lra.
  - simpl. lra.
Qed.


Lemma simulate_paths_grid_witness :
  length (paths_of Demo.quanto 0 1 1 1) = (1 + 1)%nat /\
  Forall (fun r => length r = 1%nat) (paths_of Demo.quanto 0 1 1 1) /\
  paths_of Demo.quanto 0 1 1 1 !! 0%nat = Some (replicate 1 (S0 (ref Demo.quanto))).
Proof.
  exact (simulate_paths_grid Demo.quanto 0 1 1 (Demo.mc_state 1 1) _ _ (demo_simulation 0)).
Defined.

Lemma simulate_paths_positive_witness :
  Forall (Forall (fun x => 0 < x)) (paths_of Demo.quanto 0 1 1 1).
Proof.
  refine (simulate_paths_positive Demo.quanto 0 1 1 (Demo.mc_state 1 1) _ _ _
            (demo_simulation 0)).
  simpl. lra.
Defined.

Lemma simulate_paths_increments_witness :
  paths_of Demo.quanto 0 1 1 1 !! 1%nat
  = Some (map (fun x => S0 (ref Demo.quanto) * exp x)
              (column_sums (take (1 + 1) (fst (draws Demo.quanto 0 1 1 1))))).
Proof.
  refine (simulate_paths_increments Demo.quanto 0 1 1 1 (Demo.mc_state 1 1) _ _ 1 eq_refl
            (demo_simulation 0) _).
  lia.
Defined.

Lemma simulate_paths_consumes_witness :
  np_random (with_generator (snd (draws Demo.quanto 0 1 1 1)) (Demo.mc_state 1 1))
    = advanced ((1 + 1) * 1) (seed_state 1) /\
  px_spec (with_generator (snd (draws Demo.quanto 0 1 1 1)) (Demo.mc_state 1 1))
    = px_spec (Demo.mc_state 1 1).
Proof.
  exact (simulate_paths_consumes Demo.quanto 0 1 1 1 (Demo.mc_state 1 1) _ _ eq_refl
           (demo_simulation 0)).
Defined.






Lemma calc_MC_first_character_witness :
  _calc_MC (with_right "zebra" Demo.quanto) (Demo.mc_state 1 1)
  = _calc_MC (with_right "put" (with_right "zebra" Demo.quanto)) (Demo.mc_state 1 1).
Proof.
  apply (proj2 (calc_MC_first_character (with_right "zebra" Demo.quanto)
                  (Demo.mc_state 1 1) "z" eq_refl)).
  discriminate.
Defined.

Lemma calc_px_quanto_prices_only_by_LT_MC_witness :
  ("LT"%string = "LT"%string \/ "LT"%string = "MC"%string) /\
  fst (calc_px Demo.quanto "LT" (Some 100%nat) None false 0.12 0.2 1 (Some 5%Z)
         Demo.idle_state) = Ok ReturnSelf.
Proof.
  apply (calc_px_quanto_prices_only_by_LT_MC Demo.quanto "LT" (Some 100%nat) None false
           0.12 0.2 1 (Some 5%Z) Demo.idle_state).
  discriminate.
Defined.


Lemma calc_MC_bad_right_witness :
  _calc_MC Demo.quanto_no_right (Demo.mc_state 1 1)
  = (Raise AttributeError, Demo.mc_state 1 1).
Proof.
  refine (calc_MC_bad_right Demo.quanto_no_right (Demo.mc_state 1 1) 0 0.12 0.2
            AttributeError eq_refl eq_refl eq_refl _ eq_refl).
  simpl. lia.
Defined.

End QuantoMoreInstances.
